(** * A shallow embedding of [client_mining_p/blockchain.py]

    The file follows the Python module top to bottom: the library functions
    the module calls ([hashlib.sha256], [json.dumps], [str], [bytes.__repr__],
    [str.encode]), then the [Blockchain] class, then the Flask routes, and
    finally the properties of the ledger.

    Python objects are modelled as follows.
    - [str] is [string]; a character is a code point below 256.  Texts with
      other code points are outside the model; among them are the lone
      surrogates, which [str.encode] rejects with [UnicodeEncodeError].
    - [bytes] is [list byte].
    - [int] is [Z].  On interpreters that limit the conversion of integers
      to text ([sys.int_max_str_digits], 4300 by default), [str], [repr] and
      [json.dumps] raise [ValueError] on an integer of more digits; the text
      functions below are the conversions within the limit, and [fits] says
      that a value is within it.
    - [float] is carried by its [repr] text, the only thing the
      module ever does with a float is print it.
    - writing to standard output ([print]) and the serialisation done by
      [jsonify] are not modelled: a handler's result here is the body it
      hands to [jsonify] and the status code.
    - a [dict] is an association list in insertion order; keys are [str].
    - the list object bound to [self.current_transactions] lives in a store
      and is referred to by its address, because a block keeps a reference to
      the very list the pending pool was bound to when the block was made. *)

From stdpp Require Import base option list strings sorting pretty.
From Stdlib Require Import ZArith Lia.
From Stdlib.Strings Require Import Ascii String Byte.

Open Scope Z_scope.

(* ===================================================================== *)
(** ** hashlib.sha256 *)
(* ===================================================================== *)

Module SHA256.

(** The constants are taken from the primes, as the standard defines
    them: the first 32 bits of the fractional part of a root. *)
Definition is_prime (n : Z) : bool :=
  (1 <? n) && forallb (fun d => negb (n mod d =? 0))
                      (filter (fun d => d * d <=? n) (map Z.of_nat (seq 2 18))).

(** The primes below 312: there are 64 of them. *)
Definition primes : list Z := filter is_prime (map Z.of_nat (seq 2 310)).

(** The largest [x] below [2^bits] with [x^3 <= n], one bit at a time. *)
Fixpoint cube_root (bits : nat) (n x : Z) : Z :=
  match bits with
  | O => x
  | S b =>
      let y := x + 2 ^ Z.of_nat b in
      cube_root b n (if y * y * y <=? n then y else x)
  end.

Definition frac_cube_root (p : Z) : Z := cube_root 36 (p * 2 ^ 96) 0 mod 2 ^ 32.
Definition frac_square_root (p : Z) : Z := Z.sqrt (p * 2 ^ 64) mod 2 ^ 32.

Definition K : list Z := map frac_cube_root primes.

(** 32-bit words are integers reduced modulo [2^32]. *)
Definition w32 (x : Z) : Z := x mod 2 ^ 32.
Definition add32 (x y : Z) : Z := w32 (x + y).
Definition rotr (n x : Z) : Z :=
  Z.lor (Z.shiftr x n) (w32 (Z.shiftl x (32 - n))).
Definition not32 (x : Z) : Z := Z.lxor x 0xffffffff.

Definition Ch (x y z : Z) : Z := Z.lxor (Z.land x y) (Z.land (not32 x) z).
Definition Maj (x y z : Z) : Z :=
  Z.lxor (Z.lxor (Z.land x y) (Z.land x z)) (Z.land y z).
Definition Sigma0 (x : Z) : Z :=
  Z.lxor (Z.lxor (rotr 2 x) (rotr 13 x)) (rotr 22 x).
Definition Sigma1 (x : Z) : Z :=
  Z.lxor (Z.lxor (rotr 6 x) (rotr 11 x)) (rotr 25 x).
Definition sigma0 (x : Z) : Z :=
  Z.lxor (Z.lxor (rotr 7 x) (rotr 18 x)) (Z.shiftr x 3).
Definition sigma1 (x : Z) : Z :=
  Z.lxor (Z.lxor (rotr 17 x) (rotr 19 x)) (Z.shiftr x 10).

(** Padding: a single [0x80], zeros up to 56 modulo 64, then the bit
    length as a big-endian 64-bit number. *)
Definition pad (msg : list Z) : list Z :=
  let len := Z.of_nat (List.length msg) in
  msg ++ [0x80] ++ repeat 0 (Z.to_nat ((55 - len) mod 64))
      ++ map (fun i => Z.shiftr (8 * len) (8 * i) mod 256)
             [7; 6; 5; 4; 3; 2; 1; 0].

Fixpoint words (bs : list Z) : list Z :=
  match bs with
  | a :: b :: c :: d :: rest =>
      (((a * 256 + b) * 256 + c) * 256 + d) :: words rest
  | _ => []
  end.

(** The message schedule, kept most recent word first while it grows. *)
Fixpoint extend (n : nat) (w : list Z) : list Z :=
  match n with
  | O => w
  | S n' =>
      let x := add32 (add32 (sigma1 (nth 1 w 0)) (nth 6 w 0))
                     (add32 (sigma0 (nth 14 w 0)) (nth 15 w 0)) in
      extend n' (x :: w)
  end.
Definition schedule (block : list Z) : list Z :=
  rev (extend 48 (rev (words block))).

Definition regs : Type := Z * Z * Z * Z * Z * Z * Z * Z.

Definition round (s : regs) (kw : Z * Z) : regs :=
  let '(a, b, c, d, e, f, g, h) := s in
  let t1 := add32 (add32 (add32 h (Sigma1 e)) (add32 (Ch e f g) (fst kw)))
                  (snd kw) in
  let t2 := add32 (Sigma0 a) (Maj a b c) in
  (add32 t1 t2, a, b, c, add32 d t1, e, f, g).

Definition compress (s : regs) (block : list Z) : regs :=
  let '(a, b, c, d, e, f, g, h) :=
    fold_left round (combine K (schedule block)) s in
  let '(a0, b0, c0, d0, e0, f0, g0, h0) := s in
  (add32 a0 a, add32 b0 b, add32 c0 c, add32 d0 d,
   add32 e0 e, add32 f0 f, add32 g0 g, add32 h0 h).

Fixpoint blocks (n : nat) (bs : list Z) (s : regs) : regs :=
  match n with
  | O => s
  | S n' => blocks n' (skipn 64 bs) (compress s (firstn 64 bs))
  end.

(** The initial registers, from the first eight primes. *)
Definition init : regs :=
  match map frac_square_root (firstn 8 primes) with
  | [a; b; c; d; e; f; g; h] => (a, b, c, d, e, f, g, h)
  | _ => (0, 0, 0, 0, 0, 0, 0, 0)
  end.

Definition digest_words (msg : list byte) : list Z :=
  let p := pad (map (fun b => Z.of_N (Byte.to_N b)) msg) in
  let '(a, b, c, d, e, f, g, h) := blocks (Nat.div (List.length p) 64) p init in
  [a; b; c; d; e; f; g; h].

Definition hexdigit (n : Z) : ascii :=
  ascii_of_N (Z.to_N (if n <? 10 then 48 + n else 87 + n)).

Definition hex_word (w : Z) : string :=
  fold_right (fun i acc => String (hexdigit (Z.shiftr w (4 * i) mod 16)) acc)
             EmptyString [7; 6; 5; 4; 3; 2; 1; 0].

(** [hashlib.sha256(msg).hexdigest()] *)
Definition hexdigest (msg : list byte) : string :=
  fold_right String.append EmptyString (map hex_word (digest_words msg)).

End SHA256.

(* ===================================================================== *)
(** ** Python values *)
(* ===================================================================== *)

(** A float, by the text [float.__repr__] prints for it. *)
Inductive pyfloat : Type :=
  | FNan
  | FInf (negative : bool)
  | FFinite (repr : string).

(** The values that cross the module: what [request.get_json()] can hand
    over, and what the module itself builds. *)
#[local] Unset Elimination Schemes.
Inductive pyval : Type :=
  | PNone
  | PBool (b : bool)
  | PInt (n : Z)
  | PFloat (x : pyfloat)
  | PStr (s : string)
  | PList (l : list pyval)
  | PDict (d : list (string * pyval)).
#[local] Set Elimination Schemes.

Definition pydict : Type := list (string * pyval).

(** Truth value testing, as used by [or]. *)
Definition truthy (v : pyval) : bool :=
  match v with
  | PNone => false
  | PBool b => b
  | PInt n => negb (n =? 0)
  | PFloat (FFinite r) => negb (String.eqb r "0.0" || String.eqb r "-0.0")
  | PFloat _ => true
  | PStr s => negb (String.eqb s "")
  | PList l => match l with [] => false | _ => true end
  | PDict d => match d with [] => false | _ => true end
  end.

Definition dict_has (k : string) (d : pydict) : bool :=
  existsb (fun kv => String.eqb k (fst kv)) d.

Fixpoint dict_get (k : string) (d : pydict) : option pyval :=
  match d with
  | [] => None
  | (k', v) :: d' => if String.eqb k k' then Some v else dict_get k d'
  end.

(** *** Text *)

Definition code (c : ascii) : N := N_of_ascii c.
Definition chr (n : N) : ascii := ascii_of_N n.

Definition hexchar (n : N) : ascii :=
  chr (if (n <? 10)%N then 48 + n else 87 + n)%N.

(** Two lowercase hexadecimal digits of a code below 256. *)
Definition hex2 (c : ascii) : string :=
  String (hexchar (code c / 16)) (String (hexchar (code c mod 16)) EmptyString).

Fixpoint contains (c : ascii) (s : string) : bool :=
  match s with
  | EmptyString => false
  | String c' s' => Ascii.eqb c c' || contains c s'
  end.

Definition squote : ascii := chr 39.
Definition dquote : ascii := chr 34.
Definition bslash : ascii := chr 92.

Definition str1 (c : ascii) : string := String c EmptyString.

Fixpoint concat_map (f : ascii -> string) (s : string) : string :=
  match s with
  | EmptyString => EmptyString
  | String c s' => f c +:+ concat_map f s'
  end.

(** [repr] chooses double quotes only for text that has a single quote and
    no double quote. *)
Definition pick_quote (s : string) : ascii :=
  if contains squote s && negb (contains dquote s) then dquote else squote.

Definition string_of_bytes (b : list byte) : string :=
  string_of_list_byte b.

(** [bytes.__repr__], one byte at a time. *)
Definition bytes_repr_char (quote : ascii) (c : ascii) : string :=
  if Ascii.eqb c quote || Ascii.eqb c bslash then String bslash (str1 c)
  else if (code c =? 9)%N then String bslash "t"
  else if (code c =? 10)%N then String bslash "n"
  else if (code c =? 13)%N then String bslash "r"
  else if (code c <? 32)%N || (127 <=? code c)%N then String bslash ("x" +:+ hex2 c)
  else str1 c.

Definition bytes_repr (b : list byte) : string :=
  let s := string_of_bytes b in
  let q := pick_quote s in
  "b" +:+ str1 q +:+ concat_map (bytes_repr_char q) s +:+ str1 q.

(** Code points below 256 that [str.__repr__] escapes: the C0 and C1
    controls, DEL, the no-break space and the soft hyphen. *)
Definition printable (c : ascii) : bool :=
  let n := code c in
  ((32 <=? n) && (n <? 127) || (161 <=? n) && negb (n =? 173))%N.

Definition str_repr_char (quote : ascii) (c : ascii) : string :=
  if Ascii.eqb c quote || Ascii.eqb c bslash then String bslash (str1 c)
  else if (code c =? 9)%N then String bslash "t"
  else if (code c =? 10)%N then String bslash "n"
  else if (code c =? 13)%N then String bslash "r"
  else if printable c then str1 c
  else String bslash ("x" +:+ hex2 c).

Definition str_repr (s : string) : string :=
  let q := pick_quote s in
  str1 q +:+ concat_map (str_repr_char q) s +:+ str1 q.

(** [str(n)] for an [int] within the interpreter's limit on digits. *)
Definition int_str (n : Z) : string := pretty n.

Definition float_str (x : pyfloat) : string :=
  match x with
  | FNan => "nan"
  | FInf false => "inf"
  | FInf true => "-inf"
  | FFinite r => r
  end.

Fixpoint py_repr (v : pyval) : string :=
  match v with
  | PNone => "None"
  | PBool true => "True"
  | PBool false => "False"
  | PInt n => int_str n
  | PFloat x => float_str x
  | PStr s => str_repr s
  | PList l => "[" +:+ String.concat ", " (map py_repr l) +:+ "]"
  | PDict d =>
      "{" +:+ String.concat ", "
                (map (fun kv => match kv with
                                | (k, x) => str_repr k +:+ ": " +:+ py_repr x
                                end) d)
          +:+ "}"
  end.

(** [str(v)], which is what an f-string field without a format spec
    prints. *)
Definition py_str (v : pyval) : string :=
  match v with
  | PStr s => s
  | _ => py_repr v
  end.

(** [str.encode()]: UTF-8. *)
Definition utf8 (c : ascii) : list byte :=
  if (code c <? 128)%N then [byte_of_ascii c]
  else [byte_of_ascii (chr (192 + code c / 64));
        byte_of_ascii (chr (128 + code c mod 64))].

Fixpoint encode (s : string) : list byte :=
  match s with
  | EmptyString => []
  | String c s' => utf8 c ++ encode s'
  end.

(* ===================================================================== *)
(** ** json.dumps *)
(* ===================================================================== *)

(** The escapes of the encoder with [ensure_ascii] left at its default:
    everything outside [' '..'~'], the quote and the backslash. *)
Definition json_escape_char (c : ascii) : string :=
  if Ascii.eqb c dquote then String bslash (str1 dquote)
  else if Ascii.eqb c bslash then String bslash (str1 bslash)
  else if (code c =? 10)%N then String bslash "n"
  else if (code c =? 13)%N then String bslash "r"
  else if (code c =? 9)%N then String bslash "t"
  else if (code c =? 8)%N then String bslash "b"
  else if (code c =? 12)%N then String bslash "f"
  else if (32 <=? code c)%N && (code c <=? 126)%N then str1 c
  else String bslash ("u00" +:+ hex2 c).

Definition json_string (s : string) : string :=
  str1 dquote +:+ concat_map json_escape_char s +:+ str1 dquote.

Definition json_float (x : pyfloat) : string :=
  match x with
  | FNan => "NaN"
  | FInf false => "Infinity"
  | FInf true => "-Infinity"
  | FFinite r => r
  end.

(** The order [sorted(dct.items())] puts the items in.  Keys of a dict are
    distinct, so the comparison of two items is settled by their keys, which
    are compared code point by code point. *)
Definition item_le (a b : string * string) : Prop := String.le (fst a) (fst b).

#[global] Instance item_le_dec : RelDecision item_le :=
  fun a b => decide (String.le (fst a) (fst b)).

Definition json_item (kv : string * string) : string :=
  json_string (fst kv) +:+ ": " +:+ snd kv.

Section dumps.
Variable sort_keys : bool.

Definition order_items (items : list (string * string)) : list (string * string) :=
  if sort_keys then merge_sort item_le items else items.

(** [json.dumps(v, sort_keys=sort_keys)]; the items of a dict are rendered
    first and ordered afterwards, which gives the text the encoder emits
    since the order only looks at the keys. *)
Fixpoint json_dumps (v : pyval) : string :=
  match v with
  | PNone => "null"
  | PBool true => "true"
  | PBool false => "false"
  | PInt n => int_str n
  | PFloat x => json_float x
  | PStr s => json_string s
  | PList l => "[" +:+ String.concat ", " (map json_dumps l) +:+ "]"
  | PDict d =>
      "{" +:+ String.concat ", "
                (map json_item
                   (order_items
                      (map (fun kv => match kv with
                                      | (k, x) => (k, json_dumps x)
                                      end) d)))
          +:+ "}"
  end.
End dumps.


(* ===================================================================== *)
(** ** The interpreter state: one [Blockchain] object and the list store *)
(* ===================================================================== *)

Inductive exn : Type := IndexError | NameError | KeyError.

(** Address of a list object. *)
Abbreviation loc := nat (only parsing).

(** A block is a dict with five fixed keys; [transactions] holds a reference
    to a list object.  The dicts themselves, blocks and transactions alike,
    are never written once made, and are modelled by their value. *)
Record Block : Type := mkBlock {
  index : Z;
  timestamp : pyfloat;
  transactions : loc;
  proof : pyval;
  previous_hash : pyval
}.

Record Blockchain : Type := mkBlockchain {
  chain : list Block;
  current_transactions : loc
}.

Record state : Type := mkState {
  blockchain : Blockchain;
  heap : list (list pyval)
}.

Inductive outcome (A : Type) : Type :=
  | Ok (a : A)
  | Raise (e : exn).
Arguments Ok {A} a.
Arguments Raise {A} e.

(** A computation reads and writes the state and either returns or raises;
    what it wrote before raising stays written. *)
Definition M (A : Type) : Type := state -> outcome A * state.

#[global] Instance M_ret : MRet M := fun A a s => (Ok a, s).
#[global] Instance M_bind : MBind M := fun A B f m s =>
  match m s with
  | (Ok a, s') => f a s'
  | (Raise e, s') => (Raise e, s')
  end.

Definition raise {A : Type} (e : exn) : M A := fun s => (Raise e, s).
Definition get_self : M Blockchain := fun s => (Ok (blockchain s), s).
Definition get_heap : M (list (list pyval)) := fun s => (Ok (heap s), s).
Definition set_self (bc : Blockchain) : M unit :=
  fun s => (Ok tt, mkState bc (heap s)).

(** The list at an address.  An address the store does not hold reads as
    the empty list; in the states the node reaches every address in use is
    held (see [wf] below). *)
Definition deref (h : list (list pyval)) (l : loc) : list pyval :=
  default [] (h !! l).

(** [[]]: a new list object. *)
Definition new_list : M loc :=
  fun s => (Ok (List.length (heap s)), mkState (blockchain s) (heap s ++ [[]])).

(** [l.append(v)], in place. *)
Definition list_append (l : loc) (v : pyval) : M unit :=
  fun s => (Ok tt, mkState (blockchain s) (<[l := deref (heap s) l ++ [v]]> (heap s))).

(** The dict a block is, with the keys in the order the literal in
    [new_block] inserts them. *)
Definition block_dict (h : list (list pyval)) (b : Block) : pyval :=
  PDict [("index", PInt (index b));
         ("timestamp", PFloat (timestamp b));
         ("transactions", PList (deref h (transactions b)));
         ("proof", proof b);
         ("previous_hash", previous_hash b)].

(* ===================================================================== *)
(** ** class Blockchain *)
(* ===================================================================== *)

(** What an f-string field can be handed here: text or bytes. *)
Inductive text : Type :=
  | Str (s : string)
  | Bytes (b : list byte).

Definition format_text (t : text) : string :=
  match t with
  | Str s => s
  | Bytes b => bytes_repr b
  end.

Module Blockchain.

(** [hash] *)
Definition hash (block : pyval) : string :=
  let string_object := json_dumps true block in
  let block_string := encode string_object in
  let hex_hash := SHA256.hexdigest block_string in
  hex_hash.

(** [self.chain[-1]] *)
Definition chain_last : M Block :=
  self ← get_self;
  match last (chain self) with
  | Some b => mret b
  | None => raise IndexError
  end.

(** [last_block] *)
Definition last_block : M Block := chain_last.

(** [new_block]; [now] is what [time()] returns. *)
Definition new_block (now : pyfloat) (proof previous_hash : pyval) : M Block :=
  self ← get_self;
  ph ← (if truthy previous_hash then mret previous_hash
        else b ← chain_last; h ← get_heap; mret (PStr (hash (block_dict h b))));
  let block :=
    mkBlock (Z.of_nat (List.length (chain self)) + 1) now
            (current_transactions self) proof ph in
  l ← new_list;
  set_self (mkBlockchain (chain self) l);;
  self ← get_self;
  set_self (mkBlockchain (chain self ++ [block]) (current_transactions self));;
  mret block.

(** [__init__] *)
Definition init (now : pyfloat) : M unit :=
  l ← new_list;
  set_self (mkBlockchain [] l);;
  new_block now (PInt 100) (PInt 1);;
  mret tt.

(** [valid_proof] *)
Definition valid_proof (block_string : text) (proof : pyval) : bool :=
  let guess := encode (format_text block_string +:+ py_str proof) in
  let guess_hash := SHA256.hexdigest guess in
  String.eqb (substring 0 6 guess_hash) "000000".

(** [new_transaction] *)
Definition new_transaction (sender recipient amount : pyval) : M Z :=
  let transaction :=
    PDict [("sender", sender); ("recipient", recipient); ("amount", amount)] in
  self ← get_self;
  list_append (current_transactions self) transaction;;
  b ← last_block;
  mret (index b + 1).

End Blockchain.

(* ===================================================================== *)
(** ** The routes *)
(* ===================================================================== *)

Module App.

(** A response: the body handed to [jsonify] (or returned as is) and the
    status code. *)
Definition response : Type := pyval * Z.

Definition message (m : string) : pyval := PDict [("message", PStr m)].

(** [d[k]] *)
Definition lookup_key (k : string) (d : pydict) : M pyval :=
  match dict_get k d with
  | Some v => mret v
  | None => raise KeyError
  end.

(** The names bound in the module: its imports, its assignments and its
    definitions.  No handler binds a local [required] either. *)
Definition module_names : list string :=
  ["hashlib"; "json"; "time"; "uuid4"; "Flask"; "jsonify"; "request";
   "Blockchain"; "app"; "node_identifier"; "blockchain"; "new_transaction";
   "last"; "mine"; "full_chain"; "home"].

Definition name_bound (x : string) : bool :=
  existsb (String.eqb x) module_names.

(** Evaluating the name [required], of which the handler expects a list of
    keys: the name is bound nowhere, so evaluating it raises. *)
Definition required : M (list string) := raise NameError.

(** The [/transactions/new] handler, over what evaluating [required]
    does. *)
Definition new_transaction_with
    (required : M (list string)) (values : pydict) : M response :=
  req ← required;
  if negb (forallb (fun k => dict_has k values) req) then
    mret (message "Missing Values", 400)
  else
    sender ← lookup_key "sender" values;
    recipient ← lookup_key "recipient" values;
    amount ← lookup_key "amount" values;
    Blockchain.new_transaction sender recipient amount;;
    mret (message "Transaction successful", 200).

(** [@app.route('/transactions/new')] *)
Definition new_transaction (values : pydict) : M response :=
  new_transaction_with required values.

(** [@app.route('/last_block')]; the [print] of the block is left out, it
    writes to standard output and not to the ledger. *)
Definition last : M response :=
  last_block ← Blockchain.last_block;
  h ← get_heap;
  mret (PDict [("last_block", block_dict h last_block)], 200).

(** The body of the response to an accepted proof. *)
Definition forged (h : list (list pyval)) (block : Block) : pyval :=
  PDict [("message", PStr "New Block Forged");
         ("index", PInt (index block));
         ("transactions", PList (deref h (transactions block)));
         ("proof", proof block);
         ("previous_hash", previous_hash block)].

(** [@app.route('/mine')] *)
Definition mine (now : pyfloat) (data : pydict) : M response :=
  if negb (dict_has "proof" data) || negb (dict_has "id" data) then
    mret (message "Proof and ID required", 400)
  else
    proof ← lookup_key "proof" data;
    lb ← Blockchain.last_block;
    h ← get_heap;
    let previous_hash := Blockchain.hash (block_dict h lb) in
    lb' ← Blockchain.last_block;
    let last_block_string := encode (json_dumps true (block_dict h lb')) in
    if Blockchain.valid_proof (Bytes last_block_string) proof then
      block ← Blockchain.new_block now proof (PStr previous_hash);
      id ← lookup_key "id" data;
      Blockchain.new_transaction (PStr "0") id (PInt 1);;
      h' ← get_heap;
      mret (forged h' block, 200)
    else
      mret (message "FAILURE", 200).

(** [@app.route('/chain')] *)
Definition full_chain : M response :=
  self ← get_self;
  h ← get_heap;
  mret (PDict [("length", PInt (Z.of_nat (List.length (chain self))));
               ("chain", PList (map (block_dict h) (chain self)))], 200).

(** [@app.route('/')] *)
Definition home : M response :=
  mret (PStr "<h1>Welcome to blockchain!</h1>", 200).

End App.

(** *** Runs of the node *)

(** What can be asked of the ledger: the requests the routes serve, and the
    methods of the class called directly. *)
Inductive op : Type :=
  | PostTransactionsNew (values : pydict)
  | GetLastBlock
  | PostMine (now : pyfloat) (data : pydict)
  | GetChain
  | GetHome
  | CallNewTransaction (sender recipient amount : pyval)
  | CallLastBlock
  | CallNewBlock (now : pyfloat) (proof previous_hash : pyval).

Definition run (o : op) (s : state) : state :=
  match o with
  | PostTransactionsNew values => snd (App.new_transaction values s)
  | GetLastBlock => snd (App.last s)
  | PostMine now data => snd (App.mine now data s)
  | GetChain => snd (App.full_chain s)
  | GetHome => snd (App.home s)
  | CallNewTransaction a b c => snd (Blockchain.new_transaction a b c s)
  | CallLastBlock => snd (Blockchain.last_block s)
  | CallNewBlock now p ph => snd (Blockchain.new_block now p ph s)
  end.

(** The operations the ledger offers to its callers: queueing a
    transaction, submitting a proof, and the two reads.  Sealing a block
    with a caller-chosen [previous_hash] is not among them. *)
Definition exposed (o : op) : bool :=
  match o with
  | CallNewBlock _ _ _ => false
  | _ => true
  end.

(** The state in which [__init__] starts: no list is allocated yet, and
    [init] allocates the pool's list before anything reads or writes it. *)
Definition blank : state := mkState (mkBlockchain [] 0%nat) [].

(** [blockchain = Blockchain()], the clock reading [now]. *)
Definition fresh (now : pyfloat) : state := snd (Blockchain.init now blank).

Inductive reachable : state -> Prop :=
  | reachable_fresh now : reachable (fresh now)
  | reachable_run o s : reachable s -> reachable (run o s).

Inductive reachable_exposed : state -> Prop :=
  | reachable_exposed_fresh now : reachable_exposed (fresh now)
  | reachable_exposed_run o s :
      exposed o = true -> reachable_exposed s -> reachable_exposed (run o s).

(* ===================================================================== *)
(** ** Notions the statements use *)
(* ===================================================================== *)

Definition the_chain (s : state) : list Block := chain (blockchain s).

(** The pending pool: the list [self.current_transactions] is bound to. *)
Definition pending (s : state) : list pyval :=
  deref (heap s) (current_transactions (blockchain s)).

(** The transactions of a block: the list its [transactions] key refers to. *)
Definition block_transactions (s : state) (b : Block) : list pyval :=
  deref (heap s) (transactions b).

(** The [previous_hash] the constructor gives the first block. *)
Definition SENTINEL : pyval := PInt 1.

(** The hash of a block, as [previous_hash] stores it. *)
Definition hash_of (s : state) (b : Block) : pyval :=
  PStr (Blockchain.hash (block_dict (heap s) b)).

(** The bytes [mine] hands to [valid_proof] for a block. *)
Definition block_string (s : state) (b : Block) : list byte :=
  encode (json_dumps true (block_dict (heap s) b)).

(** Whether a submitted proof passes [valid_proof] against the last block. *)
Definition accepts (s : state) (proof : pyval) : bool :=
  match last (the_chain s) with
  | Some lb => Blockchain.valid_proof (Bytes (block_string s lb)) proof
  | None => false
  end.

Definition transaction (sender recipient amount : pyval) : pyval :=
  PDict [("sender", sender); ("recipient", recipient); ("amount", amount)].

Definition reward (minerId : pyval) : pyval :=
  transaction (PStr "0") minerId (PInt 1).

(** The block [new_block] builds in [s] once [previous_hash] is settled,
    and the state it leaves. *)
Definition sealed (now : pyfloat) (proof ph : pyval) (s : state) : Block :=
  mkBlock (Z.of_nat (List.length (the_chain s)) + 1) now
          (current_transactions (blockchain s)) proof ph.

Definition seal (b : Block) (s : state) : state :=
  mkState (mkBlockchain (the_chain s ++ [b]) (List.length (heap s)))
          (heap s ++ [[]]).

(** The state [new_transaction] leaves. *)
Definition queue (t : pyval) (s : state) : state :=
  mkState (blockchain s)
          (<[current_transactions (blockchain s) := pending s ++ [t]]> (heap s)).

(** Every address in use is allocated, no block shares its list with the
    pool, and blocks are numbered from one. *)
Record wf (s : state) : Prop := mk_wf {
  wf_nonempty : the_chain s <> [];
  wf_pool : (current_transactions (blockchain s) < List.length (heap s))%nat;
  wf_blocks :
    Forall (fun b => (transactions b < current_transactions (blockchain s))%nat)
           (the_chain s);
  wf_index : forall (i : nat) (b : Block),
      the_chain s !! i = Some b -> index b = Z.of_nat i + 1
}.

(** Each block names the hash of the one before it; the first one carries
    the sentinel. *)
Record linked (s : state) : Prop := mk_linked {
  linked_first :
    exists g, the_chain s !! 0%nat = Some g /\ previous_hash g = SENTINEL;
  linked_next : forall (i : nat) (b b' : Block),
      the_chain s !! i = Some b -> the_chain s !! S i = Some b' ->
      previous_hash b' = hash_of s b
}.

(** The items of a dict with their values rendered, in insertion order. *)
Definition render (sort_keys : bool) (d : pydict) : list (string * string) :=
  map (fun kv => match kv with (k, x) => (k, json_dumps sort_keys x) end) d.

(** [reordered v w]: [w] is [v] with the items of its dicts, at any depth,
    inserted in another order.  The keys of a dict are distinct. *)
#[local] Unset Elimination Schemes.
Inductive reordered : pyval -> pyval -> Prop :=
  | reordered_same v : reordered v v
  | reordered_list l1 l2 :
      Forall2 reordered l1 l2 -> reordered (PList l1) (PList l2)
  | reordered_dict d1 d d2 :
      NoDup (d1.*1) -> d1 ≡ₚ d ->
      Forall2 (fun a b => a.1 = b.1 /\ reordered a.2 b.2) d d2 ->
      reordered (PDict d1) (PDict d2).
#[local] Set Elimination Schemes.

(** Concrete data for the examples: two clock readings, the first block
    made at the first of them, and a proof [valid_proof] accepts against
    it. *)
Definition T0 : pyfloat := FFinite "1572000000.25".
Definition T1 : pyfloat := FFinite "1572000600.5".
Definition genesis : Block := mkBlock 1 T0 0%nat (PInt 100) SENTINEL.
Definition genesis_string : list byte := block_string (fresh T0) genesis.
Definition good_proof : pyval := PInt 21975441.
Definition good_data : pydict := [("proof", good_proof); ("id", PStr "miner-1")].
Definition mined : state := run (PostMine T1 good_data) (fresh T0).
Definition genesis_hash : pyval :=
  PStr "aa388f107a593317bc544e8738981b4b92c361cdde2fe454b52e6d10fa839266".
Definition block2 : Block := mkBlock 2 T1 1%nat (PInt 7) genesis_hash.
Definition sealed2 : state :=
  mkState (mkBlockchain [genesis; block2] 2%nat) [[]; []; []].

(** A sequence of operations, first to last. *)
Definition run_all (os : list op) (s : state) : state :=
  fold_left (fun s' o => run o s') os s.

(** Calls of [new_transaction], one after the other. *)
Fixpoint queue_all (ts : list (pyval * pyval * pyval)) : M unit :=
  match ts with
  | [] => mret tt
  | (sender, recipient, amount) :: rest =>
      Blockchain.new_transaction sender recipient amount;; queue_all rest
  end.

Definition transaction_of (t : pyval * pyval * pyval) : pyval :=
  match t with
  | (sender, recipient, amount) => transaction sender recipient amount
  end.






(** The object as [__init__] has it just before it calls [new_block]: an
    empty chain and a pool bound to a new, empty list. *)
Definition unsealed : state := mkState (mkBlockchain [] 0%nat) [[]].

(** More data for the examples: three transactions and a run. *)
Definition three_transactions : list (pyval * pyval * pyval) :=
  [(PStr "A", PStr "B", PInt 5); (PStr "B", PStr "C", PInt 2);
   (PStr "A", PStr "B", PInt 5)].
Definition some_ops : list op :=
  [CallNewTransaction (PStr "A") (PStr "B") (PInt 5);
   PostMine T1 good_data;
   PostTransactionsNew [("sender", PStr "A")];
   CallNewBlock T1 (PInt 7) (PStr "abc");
   GetChain].

Arguments Blockchain.hash : simpl never.
Arguments block_dict : simpl never.
Arguments Blockchain.valid_proof : simpl never.
Arguments json_dumps : simpl never.
Arguments encode : simpl never.
Arguments SHA256.hexdigest : simpl never.

(* ===================================================================== *)
(** ** The store *)
(* ===================================================================== *)

Section store.
Implicit Types (h : list (list pyval)) (l : loc).

(** A new list is empty, which is also what an unallocated address reads
    as: allocation changes no reading. *)
Lemma deref_alloc h l : deref (h ++ [[]]) l = deref h l.
Proof.
  unfold deref.
  destruct (decide (l < List.length h)%nat) as [Hlt|Hge].
  - by rewrite lookup_app_l.
  - rewrite lookup_app_r by lia.
    rewrite (lookup_ge_None_2 h l) by lia.
    by destruct (l - List.length h)%nat as [|[|n]].
Qed.

Lemma deref_insert_ne h l l' v : l <> l' -> deref (<[l := v]> h) l' = deref h l'.
Proof. intros Hne. unfold deref. by rewrite list_lookup_insert_ne. Qed.

Lemma deref_insert_eq h l v :
  (l < List.length h)%nat -> deref (<[l := v]> h) l = v.
Proof. intros Hlt. unfold deref. by rewrite list_lookup_insert_eq. Qed.

Lemma block_dict_ext h h' (b : Block) :
  deref h' (transactions b) = deref h (transactions b) ->
  block_dict h' b = block_dict h b.
Proof. unfold block_dict. by intros ->. Qed.
End store.

(* ===================================================================== *)
(** ** What each operation computes *)
(* ===================================================================== *)

Ltac run_monad :=
  unfold mbind, M_bind, mret, M_ret, raise, get_self, get_heap, set_self,
    new_list, list_append in *.

Lemma chain_last_run (s : state) :
  Blockchain.chain_last s = match last (the_chain s) with
                            | Some b => (Ok b, s)
                            | None => (Raise IndexError, s)
                            end.
Proof.
  unfold Blockchain.chain_last, the_chain. run_monad.
  by destruct (last (chain (blockchain s))).
Qed.

Lemma new_block_truthy (now : pyfloat) (p ph : pyval) (s : state) :
  truthy ph = true ->
  Blockchain.new_block now p ph s
  = (Ok (sealed now p ph s), seal (sealed now p ph s) s).
Proof.
  intros Ht. unfold Blockchain.new_block. run_monad. by rewrite Ht.
Qed.

Lemma new_block_falsy (now : pyfloat) (p ph : pyval) (s : state) (lb : Block) :
  truthy ph = false -> last (the_chain s) = Some lb ->
  Blockchain.new_block now p ph s
  = (Ok (sealed now p (hash_of s lb) s), seal (sealed now p (hash_of s lb) s) s).
Proof.
  intros Hf Hl. unfold Blockchain.new_block.
  unfold mbind at 1 2, M_bind at 1 2. unfold get_self at 1.
  rewrite Hf. unfold mbind at 1, M_bind at 1. rewrite chain_last_run, Hl.
  by run_monad.
Qed.

Lemma new_block_falsy_empty (now : pyfloat) (p ph : pyval) (s : state) :
  truthy ph = false -> the_chain s = [] ->
  Blockchain.new_block now p ph s = (Raise IndexError, s).
Proof.
  intros Hf He. unfold Blockchain.new_block.
  unfold mbind at 1 2, M_bind at 1 2. unfold get_self at 1.
  rewrite Hf. unfold mbind at 1, M_bind at 1. rewrite chain_last_run, He.
  reflexivity.
Qed.

Lemma new_transaction_run (sender recipient amount : pyval) (s : state) :
  Blockchain.new_transaction sender recipient amount s =
  match last (the_chain s) with
  | Some b => (Ok (index b + 1), queue (transaction sender recipient amount) s)
  | None => (Raise IndexError, queue (transaction sender recipient amount) s)
  end.
Proof.
  unfold Blockchain.new_transaction, Blockchain.last_block.
  unfold mbind at 1 2, M_bind at 1 2. unfold get_self at 1, list_append.
  unfold mbind, M_bind. rewrite chain_last_run.
  unfold the_chain, queue, pending, transaction; simpl.
  by destruct (last (chain (blockchain s))).
Qed.

Lemma new_block_hash_of (now : pyfloat) (p : pyval) (s : state) (lb : Block) :
  last (the_chain s) = Some lb ->
  Blockchain.new_block now p (hash_of s lb) s
  = (Ok (sealed now p (hash_of s lb) s), seal (sealed now p (hash_of s lb) s) s).
Proof.
  intros Hl. destruct (truthy (hash_of s lb)) eqn:Ht.
  - by apply new_block_truthy.
  - by apply new_block_falsy.
Qed.

Lemma dict_get_has (k : string) (d : pydict) (v : pyval) :
  dict_get k d = Some v -> dict_has k d = true.
Proof.
  unfold dict_has. induction d as [|[k' x] d IH]; simpl; [done|].
  destruct (String.eqb k k'); [done|]. exact IH.
Qed.

Lemma dict_has_get (k : string) (d : pydict) :
  dict_has k d = true -> exists v, dict_get k d = Some v.
Proof.
  unfold dict_has. induction d as [|[k' x] d IH]; simpl; [done|].
  destruct (String.eqb k k'); simpl; eauto.
Qed.

Lemma last_seal (b : Block) (s : state) : last (the_chain (seal b s)) = Some b.
Proof. unfold seal, the_chain; simpl. apply last_snoc. Qed.

Lemma mine_missing (now : pyfloat) (data : pydict) (s : state) :
  negb (dict_has "proof" data) || negb (dict_has "id" data) = true ->
  App.mine now data s = (Ok (App.message "Proof and ID required", 400), s).
Proof. intros H. unfold App.mine. by rewrite H. Qed.

Lemma mine_head (now : pyfloat) (data : pydict) (s : state) (p : pyval) (lb : Block) :
  dict_get "proof" data = Some p -> dict_has "id" data = true ->
  last (the_chain s) = Some lb ->
  App.mine now data s =
  if Blockchain.valid_proof (Bytes (block_string s lb)) p then
    (block ← Blockchain.new_block now p (hash_of s lb);
     id ← App.lookup_key "id" data;
     Blockchain.new_transaction (PStr "0") id (PInt 1);;
     h' ← get_heap;
     mret (App.forged h' block, 200)) s
  else (Ok (App.message "FAILURE", 200), s).
Proof.
  intros Hp Hid Hl. unfold App.mine.
  rewrite (dict_get_has _ _ _ Hp), Hid.
  change (negb true || negb true) with false. cbv iota.
  unfold App.lookup_key. rewrite Hp.
  unfold Blockchain.last_block.
  unfold mbind at 1 2 3 4, M_bind at 1 2 3 4, mret at 1, M_ret at 1.
  rewrite chain_last_run, Hl. unfold get_heap at 1. rewrite chain_last_run, Hl.
  unfold block_string, hash_of.
  by destruct (Blockchain.valid_proof _ p).
Qed.

Lemma rejected_run (now : pyfloat) (data : pydict) (s : state)
    (p : pyval) (lb : Block) :
  dict_get "proof" data = Some p -> dict_has "id" data = true ->
  last (the_chain s) = Some lb ->
  Blockchain.valid_proof (Bytes (block_string s lb)) p = false ->
  App.mine now data s = (Ok (App.message "FAILURE", 200), s).
Proof. intros Hp Hid Hl Hv. rewrite (mine_head _ _ _ _ _ Hp Hid Hl). by rewrite Hv. Qed.

Lemma accepted_run (now : pyfloat) (data : pydict) (s : state)
    (p id : pyval) (lb : Block) :
  dict_get "proof" data = Some p -> dict_get "id" data = Some id ->
  last (the_chain s) = Some lb ->
  Blockchain.valid_proof (Bytes (block_string s lb)) p = true ->
  let blk := sealed now p (hash_of s lb) s in
  let s2 := queue (reward id) (seal blk s) in
  App.mine now data s = (Ok (App.forged (heap s2) blk, 200), s2).
Proof.
  intros Hp Hid Hl Hv blk s2.
  rewrite (mine_head _ _ _ _ _ Hp (dict_get_has _ _ _ Hid) Hl), Hv.
  unfold mbind at 1, M_bind at 1. rewrite (new_block_hash_of _ _ _ _ Hl).
  fold blk. unfold App.lookup_key. rewrite Hid.
  unfold mbind at 1 2, M_bind at 1 2, mret at 1, M_ret at 1.
  rewrite new_transaction_run, last_seal. reflexivity.
Qed.

(** The operations that only read. *)
Lemma last_block_reads (s : state) : snd (Blockchain.last_block s) = s.
Proof.
  unfold Blockchain.last_block. rewrite chain_last_run.
  by destruct (last (the_chain s)).
Qed.

Lemma last_reads (s : state) : snd (App.last s) = s.
Proof.
  unfold App.last, Blockchain.last_block, mbind, M_bind.
  rewrite chain_last_run. by destruct (last (the_chain s)).
Qed.

Lemma full_chain_reads (s : state) : snd (App.full_chain s) = s.
Proof. reflexivity. Qed.

Lemma home_reads (s : state) : snd (App.home s) = s.
Proof. reflexivity. Qed.

Lemma new_transaction_route_run (values : pydict) (s : state) :
  App.new_transaction values s = (Raise NameError, s).
Proof. reflexivity. Qed.

(* ===================================================================== *)
(** ** Invariants *)
(* ===================================================================== *)

Lemma fresh_eq (now : pyfloat) :
  fresh now
  = mkState (mkBlockchain [mkBlock 1 now 0%nat (PInt 100) SENTINEL] 1%nat) [[]; []].
Proof. reflexivity. Qed.

Lemma wf_last (s : state) : wf s -> exists lb, last (the_chain s) = Some lb.
Proof.
  intros [Hne _ _ _]. destruct (last (the_chain s)) as [lb|] eqn:Hl; [eauto|].
  by apply last_None in Hl.
Qed.

Lemma wf_fresh (now : pyfloat) : wf (fresh now).
Proof.
  rewrite fresh_eq. split; simpl.
  - done.
  - lia.
  - repeat constructor.
  - intros [|[|i]] b Hb; by simplify_eq/=.
Qed.

Lemma wf_seal (now : pyfloat) (p ph : pyval) (s : state) :
  wf s -> wf (seal (sealed now p ph s) s).
Proof.
  intros [Hne Hpool Hblocks Hidx]. split; unfold seal, the_chain in *; simpl.
  - by destruct (chain (blockchain s)).
  - rewrite length_app; simpl; lia.
  - apply Forall_app; split.
    + eapply Forall_impl; [exact Hblocks|]. simpl; intros; lia.
    + repeat constructor; simpl. exact Hpool.
  - intros i b Hb. apply lookup_app_Some in Hb as [Hb|[Hge Hb]].
    + by apply Hidx.
    + apply list_lookup_singleton_Some in Hb as [Hi <-]. simpl.
      unfold the_chain. replace i with (List.length (chain (blockchain s))) by lia.
      reflexivity.
Qed.

Lemma wf_queue (t : pyval) (s : state) : wf s -> wf (queue t s).
Proof.
  intros [Hne Hpool Hblocks Hidx]. split; unfold queue, the_chain in *; simpl; auto.
  by rewrite length_insert.
Qed.

(** Queueing writes to the pool's list only: every block reads as before. *)
Lemma block_dict_queue (t : pyval) (s : state) (b : Block) :
  wf s -> b ∈ the_chain s ->
  block_dict (heap (queue t s)) b = block_dict (heap s) b.
Proof.
  intros [_ _ Hblocks _] Hb. apply block_dict_ext. unfold queue; simpl.
  apply deref_insert_ne. rewrite Forall_forall in Hblocks.
  specialize (Hblocks b Hb). simpl in Hblocks. lia.
Qed.

Lemma block_dict_seal (b' : Block) (s : state) (b : Block) :
  block_dict (heap (seal b' s)) b = block_dict (heap s) b.
Proof. apply block_dict_ext. unfold seal; simpl. apply deref_alloc. Qed.

Lemma hash_of_queue (t : pyval) (s : state) (b : Block) :
  wf s -> b ∈ the_chain s -> hash_of (queue t s) b = hash_of s b.
Proof. intros Hwf Hb. unfold hash_of. by rewrite block_dict_queue. Qed.

Lemma hash_of_seal (b' : Block) (s : state) (b : Block) :
  hash_of (seal b' s) b = hash_of s b.
Proof. unfold hash_of. by rewrite block_dict_seal. Qed.

Lemma linked_fresh (now : pyfloat) : linked (fresh now).
Proof.
  rewrite fresh_eq. split; unfold the_chain; simpl.
  - eauto.
  - intros [|i] b b' Hb Hb'; simplify_eq/=.
Qed.

Lemma linked_queue (t : pyval) (s : state) : wf s -> linked s -> linked (queue t s).
Proof.
  intros Hwf [Hfirst Hnext]. split.
  - exact Hfirst.
  - intros i b b' Hb Hb'. change (the_chain (queue t s)) with (the_chain s) in *.
    rewrite hash_of_queue; [eauto|done|]. by eapply list_elem_of_lookup_2.
Qed.

Lemma linked_seal (now : pyfloat) (p : pyval) (s : state) (lb : Block) :
  wf s -> linked s -> last (the_chain s) = Some lb ->
  linked (seal (sealed now p (hash_of s lb) s) s).
Proof.
  intros Hwf [Hfirst Hnext] Hl. split.
  - destruct Hfirst as (g & Hg & Hs). exists g. split; [|done].
    unfold seal, the_chain in *; simpl. by apply lookup_app_l_Some.
  - intros i b b' Hb Hb'. rewrite hash_of_seal.
    unfold seal, the_chain in Hb, Hb'; simpl in Hb, Hb'. fold (the_chain s) in *.
    apply lookup_app_Some in Hb' as [Hb'|[Hge Hb']].
    + apply lookup_app_Some in Hb as [Hb|[Hge Hb]]; [eauto|].
      apply lookup_lt_Some in Hb'. lia.
    + apply list_lookup_singleton_Some in Hb' as [Hi <-]. simpl.
      apply lookup_app_Some in Hb as [Hb|[Hge' Hb]]; [|lia].
      rewrite last_lookup in Hl.
      replace (Init.Nat.pred (List.length (the_chain s))) with i in Hl by lia.
      congruence.
Qed.

(** Where one operation can take a well-formed state. *)
Lemma run_cases (o : op) (s : state) :
  wf s ->
  run o s = s
  \/ (exists t, run o s = queue t s)
  \/ (exists now p ph, o = CallNewBlock now p ph
                       /\ run o s = seal (sealed now p ph s) s)
  \/ (exists now p lb, last (the_chain s) = Some lb
                       /\ run o s = seal (sealed now p (hash_of s lb) s) s)
  \/ (exists now p id lb, last (the_chain s) = Some lb
        /\ run o s = queue (reward id) (seal (sealed now p (hash_of s lb) s) s)).
Proof.
  intros Hwf. destruct (wf_last s Hwf) as [lb Hl].
  destruct o as [values| |now data| | |a b c| |now p ph]; unfold run.
  - left. by rewrite new_transaction_route_run.
  - left. apply last_reads.
  - destruct (negb (dict_has "proof" data) || negb (dict_has "id" data)) eqn:Hm.
    { left. by rewrite mine_missing. }
    apply orb_false_elim in Hm as [Hp Hid].
    apply negb_false_iff in Hp, Hid.
    destruct (dict_has_get _ _ Hp) as [p Hp'].
    destruct (dict_has_get _ _ Hid) as [id Hid'].
    destruct (Blockchain.valid_proof (Bytes (block_string s lb)) p) eqn:Hv.
    + do 4 right. exists now, p, id, lb. split; [done|].
      by rewrite (accepted_run _ _ _ _ _ _ Hp' Hid' Hl Hv).
    + left. by rewrite (rejected_run _ _ _ _ _ Hp' Hid Hl Hv).
  - left. apply full_chain_reads.
  - left. apply home_reads.
  - right; left. exists (transaction a b c). by rewrite new_transaction_run, Hl.
  - left. apply last_block_reads.
  - destruct (truthy ph) eqn:Ht.
    + do 2 right; left. exists now, p, ph. by rewrite new_block_truthy.
    + do 3 right; left. exists now, p, lb. split; [done|].
      by rewrite (new_block_falsy _ _ _ _ _ Ht Hl).
Qed.

Lemma wf_run (o : op) (s : state) : wf s -> wf (run o s).
Proof.
  intros Hwf.
  destruct (run_cases o s Hwf)
    as [->|[[t ->]|[(now & p & ph & _ & ->)|[(now & p & lb & _ & ->)
       |(now & p & id & lb & _ & ->)]]]];
    auto using wf_queue, wf_seal.
Qed.

Lemma reachable_wf (s : state) : reachable s -> wf s.
Proof. induction 1; auto using wf_fresh, wf_run. Qed.

Lemma reachable_exposed_reachable (s : state) : reachable_exposed s -> reachable s.
Proof. induction 1; by constructor. Qed.

Lemma linked_run (o : op) (s : state) :
  exposed o = true -> wf s -> linked s -> linked (run o s).
Proof.
  intros He Hwf Hl.
  destruct (run_cases o s Hwf)
    as [->|[[t ->]|[(now & p & ph & -> & _)|[(now & p & lb & Hlb & ->)
       |(now & p & id & lb & Hlb & ->)]]]];
    auto using linked_queue, linked_seal, wf_seal.
  discriminate He.
Qed.

Lemma reachable_exposed_linked (s : state) : reachable_exposed s -> linked s.
Proof.
  induction 1 as [now|o s He Hr IH]; [apply linked_fresh|].
  apply linked_run; auto using reachable_wf, reachable_exposed_reachable.
Qed.

(* ===================================================================== *)
(** ** Canonical serialisation *)
(* ===================================================================== *)

#[global] Instance item_le_trans : Transitive item_le.
Proof. intros a b c; unfold item_le; apply transitivity. Qed.

#[global] Instance item_le_total : Total item_le.
Proof. intros a b; unfold item_le; apply total, _. Qed.

Lemma NoDup_fst_inj {A : Type} (l : list (string * A)) (x y : string * A) :
  NoDup (l.*1) -> x ∈ l -> y ∈ l -> x.1 = y.1 -> x = y.
Proof.
  induction l as [|z l IH]; intros Hnd Hx Hy Hk; [by inv Hx|].
  apply NoDup_cons in Hnd as [Hz Hnd].
  apply elem_of_cons in Hx as [->|Hx]; apply elem_of_cons in Hy as [->|Hy]; auto.
  - exfalso. apply Hz. rewrite Hk. by apply list_elem_of_fmap_2.
  - exfalso. apply Hz. rewrite <- Hk. by apply list_elem_of_fmap_2.
Qed.

(** Sorting forgets the order the items came in. *)
Lemma merge_sort_items (l1 l2 : list (string * string)) :
  NoDup (l1.*1) -> l1 ≡ₚ l2 ->
  merge_sort item_le l1 = merge_sort item_le l2.
Proof.
  intros Hnd Hp.
  apply (StronglySorted_unique_strong item_le).
  - intros x1 x2 Hx1 Hx2 H12 H21.
    apply (NoDup_fst_inj l1); [done| | |].
    + by rewrite merge_sort_Permutation in Hx1.
    + rewrite merge_sort_Permutation in Hx2. by rewrite Hp.
    + unfold item_le in *. by apply (anti_symm String.le).
  - apply StronglySorted_merge_sort; apply _.
  - apply StronglySorted_merge_sort; apply _.
  - by rewrite !merge_sort_Permutation.
Qed.

Lemma json_dumps_dict (sort_keys : bool) (d : pydict) :
  json_dumps sort_keys (PDict d)
  = "{" +:+ String.concat ", "
              (map json_item (order_items sort_keys (render sort_keys d)))
        +:+ "}".
Proof. reflexivity. Qed.

Lemma json_dumps_list (sort_keys : bool) (l : list pyval) :
  json_dumps sort_keys (PList l)
  = "[" +:+ String.concat ", " (map (json_dumps sort_keys) l) +:+ "]".
Proof. reflexivity. Qed.

Lemma render_keys (sort_keys : bool) (d : pydict) : (render sort_keys d).*1 = d.*1.
Proof. induction d as [|[k x] d IH]; simpl; by f_equal. Qed.

Lemma json_dumps_permutation (d1 d2 : pydict) :
  NoDup (d1.*1) -> d1 ≡ₚ d2 ->
  json_dumps true (PDict d1) = json_dumps true (PDict d2).
Proof.
  intros Hnd Hp. rewrite !json_dumps_dict. unfold order_items.
  rewrite (merge_sort_items (render true d1) (render true d2)); [done| |].
  - by rewrite render_keys.
  - unfold render. by apply Permutation_map.
Qed.

(** By induction on the derivation, through the lists it nests in. *)
Lemma json_dumps_reordered :
  forall v1 v2, reordered v1 v2 -> json_dumps true v1 = json_dumps true v2.
Proof.
  fix IH 3. intros v1 v2 [v|l1 l2 Hl|d1 d d2 Hnd Hp Hd].
  - reflexivity.
  - rewrite !json_dumps_list.
    assert (map (json_dumps true) l1 = map (json_dumps true) l2) as ->; [|done].
    induction Hl as [|x y l1 l2 Hxy Hl IHl]; simpl; [done|].
    f_equal; [by apply IH|done].
  - rewrite (json_dumps_permutation d1 d Hnd Hp). rewrite !json_dumps_dict.
    assert (render true d = render true d2) as ->; [|done].
    clear Hnd Hp.
    induction Hd as [|[k x] [k' y] d d2 [Hk Hxy] Hd IHd]; simpl in *; [done|].
    subst. f_equal; [f_equal; by apply IH | apply IHd].
Qed.

Lemma reordered_permutation (d1 d2 : pydict) :
  NoDup (d1.*1) -> d1 ≡ₚ d2 -> reordered (PDict d1) (PDict d2).
Proof.
  intros Hnd Hp. apply (reordered_dict d1 d2 d2 Hnd Hp).
  apply Forall_Forall2_diag, Forall_forall. intros x _. split; [done|constructor].
Qed.

(** Without [sort_keys] the text follows the insertion order. *)
Example json_dumps_unsorted :
  json_dumps false (PDict [("b", PInt 2); ("a", PInt 1)])
  <> json_dumps false (PDict [("a", PInt 1); ("b", PInt 2)]).
Proof. by vm_compute. Qed.

(** The constants, against the published ones. *)
Example sha256_constants :
  List.length SHA256.K = 64%nat
  /\ nth 0 SHA256.K 0 = 0x428a2f98 /\ nth 1 SHA256.K 0 = 0x71374491
  /\ nth 63 SHA256.K 0 = 0xc67178f2
  /\ SHA256.init = (0x6a09e667, 0xbb67ae85, 0x3c6ef372, 0xa54ff53a,
                    0x510e527f, 0x9b05688c, 0x1f83d9ab, 0x5be0cd19).
Proof. by vm_compute. Qed.

(** Known digests. *)
Example sha256_empty :
  SHA256.hexdigest []
  = "e3b0c44298fc1c149afbf4c8996fb92427ae41e4649b934ca495991b7852b855".
Proof. by vm_compute. Qed.

Example sha256_abc :
  SHA256.hexdigest (encode "abc")
  = "ba7816bf8f01cfea414140de5dae2223b00361a396177a9cb410ff61f20015ad".
Proof. by vm_compute. Qed.

Example sha256_two_blocks :
  SHA256.hexdigest
    (encode "abcdbcdecdefdefgefghfghighijhijkijkljklmklmnlmnomnopnopq")
  = "248d6a61d20638b8e5c026930c3e6039a33ce45964ff2167f6ecedd419db06c1".
Proof. by vm_compute. Qed.

Lemma string_length_app (s1 s2 : string) :
  String.length (s1 +:+ s2) = (String.length s1 + String.length s2)%nat.
Proof. induction s1 as [|c s1 IH]; simpl; [done|]. by rewrite <- IH. Qed.

(** A digest prints as 64 characters. *)
Lemma hexdigest_length (msg : list byte) :
  String.length (SHA256.hexdigest msg) = 64%nat.
Proof.
  unfold SHA256.hexdigest, SHA256.digest_words.
  destruct (SHA256.blocks _ _ _) as [[[[[[[a b] c] d] e] f] g] h].
  cbn [map fold_right]. by rewrite !string_length_app.
Qed.

(** The text functions against the interpreter: the digests on the right
    are those of the texts Python prints for the same values. *)
Example text_digests :
  let s := "a'b" +:+ str1 dquote +:+ str1 bslash +:+ str1 (chr 10)
           +:+ str1 (chr 233) +:+ str1 (chr 127) +:+ str1 (chr 160)
           +:+ str1 (chr 9) +:+ str1 (chr 1) +:+ str1 (chr 173) in
  let v := PList [PStr s;
                  PDict [(s, PNone);
                         ("k", PList [PBool true; PBool false;
                                      PFloat (FFinite "1.5"); PInt (-3)])];
                  PDict []] in
  SHA256.hexdigest (encode (json_dumps true (PStr s)))
  = "c3fdc68d05cb13bbf3a060fd4bf99a6ae4b7bfea1d87aab36162216449bcf021"
  /\ SHA256.hexdigest (encode (py_repr (PStr s)))
     = "33f9e7214ae577e3673be7fddee0e06ad74e75b04f976b753ad8f0ef68bb91a8"
  /\ SHA256.hexdigest (encode (bytes_repr (encode s)))
     = "a8c2af6b870820593698938dc4395fec8f0d5bc54ba8d705448cc1e948b73624"
  /\ SHA256.hexdigest (encode (py_str v))
     = "0104f11919f3c3b17bb15be65ea17af253d5f9cc6f1159891411d24cb25d9c98"
  /\ SHA256.hexdigest (encode (json_dumps true v))
     = "27265cd03745814631ede5f783e541152bf49b5494b491c503a811fcf234bc6f"
  /\ SHA256.hexdigest (encode (bytes_repr (encode "it's")))
     = "03930b64f547357f4d185862c540c8080ac7ac978f38f995b38b7b8742293653".
Proof. by vm_compute. Qed.

(** The hash of the first block made at [T0], and the digest [valid_proof]
    takes for [good_proof] against it. *)
Example genesis_digests :
  hash_of (fresh T0) genesis = genesis_hash
  /\ SHA256.hexdigest (encode (bytes_repr genesis_string +:+ "21975441"))
     = "000000c020a1e956abdd043c3450a7d70ccd8e89dd74a0c7f37c6c5b5987173d"
  /\ SHA256.hexdigest (genesis_string ++ encode "12200")
     = "000000cfb645b0e82af3ca67d97d12561bcbbf964da52ded2995d879f5c030d4".
Proof. by vm_compute. Qed.

Lemma encode_app (s1 s2 : string) : encode (s1 +:+ s2) = encode s1 ++ encode s2.
Proof.
  induction s1 as [|c s1 IH]; [done|].
  change (encode (String c (s1 +:+ s2)) = encode (String c s1) ++ encode s2).
  change (utf8 c ++ encode (s1 +:+ s2) = (utf8 c ++ encode s1) ++ encode s2).
  by rewrite IH, app_assoc.
Qed.

(* ===================================================================== *)
(** ** Sealing and queueing *)
(* ===================================================================== *)

Lemma new_block_inv (now : pyfloat) (p ph : pyval) (s : state)
    (blk : Block) (s' : state) :
  Blockchain.new_block now p ph s = (Ok blk, s') ->
  exists ph', blk = sealed now p ph' s /\ s' = seal blk s.
Proof.
  intros H. destruct (truthy ph) eqn:Ht.
  - rewrite new_block_truthy in H by done. simplify_eq. eauto.
  - destruct (last (the_chain s)) as [lb|] eqn:Hl.
    + rewrite (new_block_falsy _ _ _ _ _ Ht Hl) in H. simplify_eq. eauto.
    + apply last_None in Hl. rewrite new_block_falsy_empty in H by done.
      discriminate H.
Qed.

Lemma pending_seal (b : Block) (s : state) : pending (seal b s) = [].
Proof.
  unfold pending, seal, deref; simpl.
  rewrite lookup_app_r by lia. by rewrite Nat.sub_diag.
Qed.

Lemma block_transactions_seal (b' b : Block) (s : state) :
  block_transactions (seal b' s) b = block_transactions s b.
Proof. unfold block_transactions, seal; simpl. apply deref_alloc. Qed.

Lemma pending_queue (t : pyval) (s : state) :
  (current_transactions (blockchain s) < List.length (heap s))%nat ->
  pending (queue t s) = pending s ++ [t].
Proof. intros Hlt. unfold pending at 1, queue; simpl. by apply deref_insert_eq. Qed.

Lemma block_transactions_queue (t : pyval) (s : state) (b : Block) :
  transactions b <> current_transactions (blockchain s) ->
  block_transactions (queue t s) b = block_transactions s b.
Proof.
  intros Hne. unfold block_transactions, queue; simpl.
  by apply deref_insert_ne.
Qed.

(** What a successful [mine] amounts to: a seal, then one append to the new
    pool, which is a list of its own. *)
Lemma accepted_facts (s : state) (now : pyfloat) (data : pydict)
    (p minerId : pyval) (lb : Block) :
  wf s ->
  dict_get "proof" data = Some p -> dict_get "id" data = Some minerId ->
  last (the_chain s) = Some lb ->
  Blockchain.valid_proof (Bytes (block_string s lb)) p = true ->
  let blk := sealed now p (hash_of s lb) s in
  let s1 := seal blk s in
  let s2 := queue (reward minerId) s1 in
  Blockchain.new_block now p (hash_of s lb) s = (Ok blk, s1)
  /\ Blockchain.new_transaction (PStr "0") minerId (PInt 1) s1
     = (Ok (index blk + 1), s2)
  /\ App.mine now data s = (Ok (App.forged (heap s2) blk, 200), s2)
  /\ the_chain s2 = the_chain s ++ [blk]
  /\ block_transactions s1 blk = pending s
  /\ pending s1 = []
  /\ block_transactions s2 blk = pending s
  /\ pending s2 = [reward minerId].
Proof.
  intros Hwf Hp Hid Hl Hv blk s1 s2.
  assert (Hs1 : (current_transactions (blockchain s1) < List.length (heap s1))%nat).
  { unfold s1, seal; simpl. rewrite length_app; simpl; lia. }
  assert (Hb1 : block_transactions s1 blk = pending s).
  { unfold s1. by rewrite block_transactions_seal. }
  repeat split.
  - by apply new_block_hash_of.
  - unfold s2, s1. by rewrite new_transaction_run, last_seal.
  - by apply accepted_run.
  - exact Hb1.
  - apply pending_seal.
  - unfold s2. rewrite block_transactions_queue; [exact Hb1|].
    unfold s1, seal, blk, sealed; simpl. destruct Hwf as [_ Hpool _ _]. lia.
  - unfold s2. rewrite pending_queue by exact Hs1. unfold s1.
    by rewrite pending_seal.
Qed.

Lemma accepts_last (s : state) (p : pyval) (lb : Block) :
  last (the_chain s) = Some lb ->
  accepts s p = Blockchain.valid_proof (Bytes (block_string s lb)) p.
Proof. intros Hl. unfold accepts. by rewrite Hl. Qed.

(** [valid_proof] on text and on bytes. *)
Lemma valid_proof_str (s : string) (n : Z) :
  Blockchain.valid_proof (Str s) (PInt n) = true
  <-> substring 0 6 (SHA256.hexdigest (encode s ++ encode (int_str n))) = "000000".
Proof.
  unfold Blockchain.valid_proof, format_text, py_str, py_repr.
  rewrite encode_app. apply String.eqb_eq.
Qed.

Lemma valid_proof_bytes (b : list byte) (n : Z) :
  Blockchain.valid_proof (Bytes b) (PInt n) = true
  <-> substring 0 6 (SHA256.hexdigest (encode (bytes_repr b) ++ encode (int_str n)))
      = "000000".
Proof.
  unfold Blockchain.valid_proof, format_text, py_str, py_repr.
  rewrite encode_app. apply String.eqb_eq.
Qed.

(** What the [/transactions/new] handler does once [required] evaluates to
    the three field names. *)
Lemma new_transaction_with_required (values : pydict) (s : state) (lb : Block) :
  last (the_chain s) = Some lb ->
  App.new_transaction_with (mret ["sender"; "recipient"; "amount"]) values s =
  match dict_get "sender" values, dict_get "recipient" values,
        dict_get "amount" values with
  | Some a, Some b, Some c =>
      (Ok (App.message "Transaction successful", 200), queue (transaction a b c) s)
  | _, _, _ => (Ok (App.message "Missing Values", 400), s)
  end.
Proof.
  intros Hl. unfold App.new_transaction_with.
  unfold mbind at 1, M_bind at 1, mret at 1, M_ret at 1.
  cbn [forallb].
  destruct (dict_get "sender" values) as [a|] eqn:Ha.
  2:{ destruct (dict_has "sender" values) eqn:Hh; [|done].
      apply dict_has_get in Hh as [? ?]; congruence. }
  rewrite (dict_get_has _ _ _ Ha).
  destruct (dict_get "recipient" values) as [b|] eqn:Hb.
  2:{ destruct (dict_has "recipient" values) eqn:Hh; [|done].
      apply dict_has_get in Hh as [? ?]; congruence. }
  rewrite (dict_get_has _ _ _ Hb).
  destruct (dict_get "amount" values) as [c|] eqn:Hc.
  2:{ destruct (dict_has "amount" values) eqn:Hh; [|done].
      apply dict_has_get in Hh as [? ?]; congruence. }
  rewrite (dict_get_has _ _ _ Hc).
  change (negb (true && (true && (true && true)))) with false. cbv iota.
  unfold App.lookup_key. rewrite Ha, Hb, Hc.
  unfold mbind, M_bind, mret, M_ret.
  by rewrite new_transaction_run, Hl.
Qed.

Lemma required_unbound : App.name_bound "required" = false.
Proof. reflexivity. Qed.

(* ===================================================================== *)
(** ** The ledger's properties *)
(* ===================================================================== *)

(** C1, at the point where the code parts from it.  [mine] hands
    [valid_proof] the bytes of the last block, and the f-string prints bytes
    as a literal, [b'...'], so the digest is taken over that literal followed
    by the proof, not over the bytes followed by the proof.  Against the
    first block made at [T0]: proof 12200 makes the digest of the bytes and
    the decimal proof start with six zeros, and [valid_proof] answers false;
    proof 21975441 is answered true, and the digest of the bytes and the
    decimal proof starts with [c89cf3]. *)
Theorem valid_proof_digests_bytes_literal :
  Blockchain.valid_proof (Bytes genesis_string) (PInt 12200) = false
  /\ substring 0 6 (SHA256.hexdigest (genesis_string ++ encode (int_str 12200)))
     = "000000"
  /\ Blockchain.valid_proof (Bytes genesis_string) (PInt 21975441) = true
  /\ substring 0 6 (SHA256.hexdigest (genesis_string ++ encode (int_str 21975441)))
     = "c89cf3".
Proof. vm_compute. repeat split; reflexivity. Qed.

(** C2: in every state reached from construction by the exposed operations,
    each block after the first has for [previous_hash] the hash of the block
    before it, and the first block, and no other, has the sentinel. *)
Theorem chain_hash_linked (s : state) :
  reachable_exposed s ->
  (forall (i : nat) (b b' : Block),
      the_chain s !! i = Some b -> the_chain s !! S i = Some b' ->
      previous_hash b' = PStr (Blockchain.hash (block_dict (heap s) b)))
  /\ (forall (i : nat) (b : Block),
         the_chain s !! i = Some b -> (previous_hash b = SENTINEL <-> i = 0%nat)).
Proof.
  intros Hr. destruct (reachable_exposed_linked s Hr) as [Hfirst Hnext].
  split; [exact Hnext|].
  intros i b Hb. split.
  - intros Hs. destruct i as [|j]; [done|].
    destruct (lookup_lt_is_Some_2 (the_chain s) j) as [b0 Hb0].
    { apply lookup_lt_Some in Hb. lia. }
    rewrite (Hnext j b0 b Hb0 Hb) in Hs. discriminate Hs.
  - intros ->. destruct Hfirst as (g & Hg & Hs). congruence.
Qed.

Lemma chain_hash_linked_witness :
  the_chain mined !! 0%nat = Some genesis
  /\ (exists b', the_chain mined !! 1%nat = Some b'
                 /\ previous_hash b'
                    = PStr (Blockchain.hash (block_dict (heap mined) genesis))
                 /\ previous_hash b' <> SENTINEL)
  /\ previous_hash genesis = SENTINEL.
Proof.
  assert (Hr : reachable_exposed mined).
  { apply reachable_exposed_run; [reflexivity|apply reachable_exposed_fresh]. }
  destruct (chain_hash_linked mined Hr) as [Hnext Hsent].
  assert (H0 : the_chain mined !! 0%nat = Some genesis) by (vm_compute; reflexivity).
  destruct (the_chain mined !! 1%nat) as [b'|] eqn:H1; [|vm_compute in H1; discriminate H1].
  split; [exact H0|]. split.
  - exists b'. split; [reflexivity|]. split.
    + exact (Hnext 0%nat genesis b' H0 H1).
    + intros Hs. apply (Hsent 1%nat b' H1) in Hs. discriminate Hs.
  - apply (Hsent 0%nat genesis H0). reflexivity.
Defined.

(** C3, at the point where the code parts from it.  The handler of
    [/transactions/new] evaluates the name [required], which nothing binds:
    a request with all three fields raises [NameError] and queues nothing,
    and so does a request that lacks fields. *)
Theorem new_transaction_route_raises :
  App.new_transaction
    [("sender", PStr "A"); ("recipient", PStr "B"); ("amount", PInt 5)] (fresh T0)
  = (Raise NameError, fresh T0)
  /\ pending (fresh T0) = []
  /\ App.new_transaction [("sender", PStr "A")] (fresh T0)
     = (Raise NameError, fresh T0).
Proof. repeat split. Qed.

(** C4, where the code parts from it: what [mine] answers with is not the
    sealed block.  On the ledger made at [T0], with the accepted proof, the
    body handed to [jsonify] has a "message" and no "timestamp", and differs
    from the dict of the block that was appended. *)
Lemma mine_response_is_not_the_block :
  exists (body : pyval) (blk : Block) (s2 : state),
    App.mine T1 good_data (fresh T0) = (Ok (body, 200), s2)
    /\ last (the_chain s2) = Some blk
    /\ body <> block_dict (heap s2) blk
    /\ body = PDict [("message", PStr "New Block Forged"); ("index", PInt 2);
                     ("transactions", PList []); ("proof", good_proof);
                     ("previous_hash", genesis_hash)]
    /\ block_dict (heap s2) blk
       = PDict [("index", PInt 2); ("timestamp", PFloat T1);
                ("transactions", PList []); ("proof", good_proof);
                ("previous_hash", genesis_hash)].
Proof.
  eexists _, _, _. split; [vm_compute; reflexivity|].
  split; [vm_compute; reflexivity|].
  split; [vm_compute; discriminate|].
  split; vm_compute; reflexivity.
Qed.

(** C4, amended: in a reachable state, when [valid_proof] accepts the
    submitted proof against the bytes of the last block, [mine] seals a block
    whose [previous_hash] is the hash of the last block and whose
    transactions are the pool as it stood, then appends one reward
    transaction to the new, empty pool, so that the reward is not among the
    sealed block's transactions, and hands [jsonify], with status 200, a
    response made of the message "New Block Forged" and the sealed block's
    index, transactions, proof and [previous_hash]; the block's timestamp is
    not in the response. *)
Theorem mine_accepted (s : state) (now : pyfloat) (data : pydict)
    (p minerId : pyval) :
  reachable s ->
  dict_get "proof" data = Some p -> dict_get "id" data = Some minerId ->
  accepts s p = true ->
  exists (lb blk : Block) (s1 s2 : state) (n : Z),
    last (the_chain s) = Some lb
    /\ Blockchain.new_block now p (PStr (Blockchain.hash (block_dict (heap s) lb))) s
       = (Ok blk, s1)
    /\ Blockchain.new_transaction (PStr "0") minerId (PInt 1) s1 = (Ok n, s2)
    /\ App.mine now data s
       = (Ok (PDict [("message", PStr "New Block Forged");
                     ("index", PInt (index blk));
                     ("transactions", PList (pending s));
                     ("proof", p);
                     ("previous_hash", previous_hash blk)], 200), s2)
    /\ the_chain s2 = the_chain s ++ [blk]
    /\ previous_hash blk = PStr (Blockchain.hash (block_dict (heap s) lb))
    /\ proof blk = p
    /\ block_transactions s1 blk = pending s
    /\ pending s1 = []
    /\ pending s2
       = [PDict [("sender", PStr "0"); ("recipient", minerId); ("amount", PInt 1)]]
    /\ block_transactions s2 blk = pending s.
Proof.
  intros Hr Hp Hid Ha. pose proof (reachable_wf s Hr) as Hwf.
  destruct (wf_last s Hwf) as [lb Hl]. rewrite (accepts_last _ _ _ Hl) in Ha.
  destruct (accepted_facts s now data p minerId lb Hwf Hp Hid Hl Ha)
    as (Hnb & Hnt & Hm & Hc & Hb1 & Hp1 & Hb2 & Hp2).
  eexists lb, _, _, _, _. split; [exact Hl|]. split; [exact Hnb|].
  split; [exact Hnt|]. split.
  { rewrite Hm. unfold App.forged.
    change (deref (heap ?s) (transactions ?b)) with (block_transactions s b).
    by rewrite Hb2. }
  repeat split; assumption.
Qed.

Lemma mine_accepted_witness :
  exists (lb blk : Block) (s1 s2 : state) (n : Z),
    last (the_chain (fresh T0)) = Some lb
    /\ Blockchain.new_block T1 good_proof
         (PStr (Blockchain.hash (block_dict (heap (fresh T0)) lb))) (fresh T0)
       = (Ok blk, s1)
    /\ Blockchain.new_transaction (PStr "0") (PStr "miner-1") (PInt 1) s1 = (Ok n, s2)
    /\ App.mine T1 good_data (fresh T0)
       = (Ok (PDict [("message", PStr "New Block Forged");
                     ("index", PInt (index blk));
                     ("transactions", PList (pending (fresh T0)));
                     ("proof", good_proof);
                     ("previous_hash", previous_hash blk)], 200), s2)
    /\ the_chain s2 = the_chain (fresh T0) ++ [blk]
    /\ previous_hash blk
       = PStr (Blockchain.hash (block_dict (heap (fresh T0)) lb))
    /\ proof blk = good_proof
    /\ block_transactions s1 blk = pending (fresh T0)
    /\ pending s1 = []
    /\ pending s2
       = [PDict [("sender", PStr "0"); ("recipient", PStr "miner-1");
                 ("amount", PInt 1)]]
    /\ block_transactions s2 blk = pending (fresh T0).
Proof.
  apply (mine_accepted (fresh T0) T1 good_data good_proof (PStr "miner-1")).
  - apply reachable_fresh.
  - reflexivity.
  - reflexivity.
  - vm_compute. reflexivity.
Defined.

(** C5: when [valid_proof] rejects the submitted proof against the bytes of
    the last block, [mine] answers with the message FAILURE and changes
    neither the chain nor the pool: the state is the one it started in. *)
Theorem mine_rejected (s : state) (now : pyfloat) (data : pydict) (p : pyval) :
  reachable s ->
  dict_get "proof" data = Some p -> dict_has "id" data = true ->
  accepts s p = false ->
  App.mine now data s = (Ok (PDict [("message", PStr "FAILURE")], 200), s).
Proof.
  intros Hr Hp Hid Ha. destruct (wf_last s (reachable_wf s Hr)) as [lb Hl].
  rewrite (accepts_last _ _ _ Hl) in Ha.
  exact (rejected_run now data s p lb Hp Hid Hl Ha).
Qed.

Lemma mine_rejected_witness :
  App.mine T1 [("proof", PInt 12200); ("id", PStr "miner-1")] (fresh T0)
  = (Ok (PDict [("message", PStr "FAILURE")], 200), fresh T0).
Proof.
  apply (mine_rejected (fresh T0) T1 _ (PInt 12200)).
  - apply reachable_fresh.
  - reflexivity.
  - reflexivity.
  - vm_compute. reflexivity.
Defined.

(** C6: every seal, by [new_block] or by a successful [mine], makes a block
    whose transactions are the pool as it stood when the block was made and
    leaves the pool empty right after the seal; with an empty pool, queueing
    the transaction from "A" to "B" of amount 5 and then sealing gives a
    block whose transactions are exactly that one, and an empty pool. *)
Theorem seal_captures_pool :
  (forall (s : state) (now : pyfloat) (p ph : pyval) (blk : Block) (s' : state),
      Blockchain.new_block now p ph s = (Ok blk, s') ->
      block_transactions s' blk = pending s /\ pending s' = [])
  /\ (forall (s : state) (now : pyfloat) (data : pydict) (p minerId : pyval),
         reachable s ->
         dict_get "proof" data = Some p -> dict_get "id" data = Some minerId ->
         accepts s p = true ->
         exists (ph : pyval) (blk : Block) (s1 : state),
           Blockchain.new_block now p ph s = (Ok blk, s1)
           /\ block_transactions s1 blk = pending s
           /\ pending s1 = []
           /\ snd (Blockchain.new_transaction (PStr "0") minerId (PInt 1) s1)
              = snd (App.mine now data s)
           /\ block_transactions (snd (App.mine now data s)) blk = pending s)
  /\ (forall (s : state) (now : pyfloat) (X : pyval),
         reachable s -> pending s = [] ->
         exists (n : Z) (s1 : state) (blk : Block) (s2 : state),
           Blockchain.new_transaction (PStr "A") (PStr "B") (PInt 5) s = (Ok n, s1)
           /\ Blockchain.new_block now X PNone s1 = (Ok blk, s2)
           /\ block_transactions s2 blk
              = [PDict [("sender", PStr "A"); ("recipient", PStr "B");
                        ("amount", PInt 5)]]
           /\ pending s2 = []).
Proof.
  split; [|split].
  - intros s now p ph blk s' H.
    destruct (new_block_inv _ _ _ _ _ _ H) as (ph' & -> & ->).
    split; [|apply pending_seal].
    by rewrite block_transactions_seal.
  - intros s now data p minerId Hr Hp Hid Ha.
    pose proof (reachable_wf s Hr) as Hwf.
    destruct (wf_last s Hwf) as [lb Hl]. rewrite (accepts_last _ _ _ Hl) in Ha.
    destruct (accepted_facts s now data p minerId lb Hwf Hp Hid Hl Ha)
      as (Hnb & Hnt & Hm & Hc & Hb1 & Hp1 & Hb2 & Hp2).
    eexists _, _, _. split; [exact Hnb|]. rewrite Hnt, Hm. by repeat split.
  - intros s now X Hr Hempty.
    pose proof (reachable_wf s Hr) as Hwf.
    destruct (wf_last s Hwf) as [lb Hl].
    set (t := transaction (PStr "A") (PStr "B") (PInt 5)).
    assert (Hl1 : last (the_chain (queue t s)) = Some lb) by exact Hl.
    eexists _, _, _, _. split; [by rewrite new_transaction_run, Hl|].
    split; [by apply new_block_falsy|].
    split; [|apply pending_seal].
    rewrite block_transactions_seal.
    change (pending (queue t s) = [t]).
    rewrite pending_queue by apply Hwf. by rewrite Hempty.
Qed.

Lemma seal_captures_pool_witness :
  (block_transactions sealed2 block2 = pending (fresh T0) /\ pending sealed2 = [])
  /\ (exists (ph : pyval) (blk : Block) (s1 : state),
         Blockchain.new_block T1 good_proof ph (fresh T0) = (Ok blk, s1)
         /\ block_transactions s1 blk = pending (fresh T0)
         /\ pending s1 = []
         /\ snd (Blockchain.new_transaction (PStr "0") (PStr "miner-1") (PInt 1) s1)
            = snd (App.mine T1 good_data (fresh T0))
         /\ block_transactions (snd (App.mine T1 good_data (fresh T0))) blk
            = pending (fresh T0))
  /\ (exists (n : Z) (s1 : state) (blk : Block) (s2 : state),
         Blockchain.new_transaction (PStr "A") (PStr "B") (PInt 5) (fresh T0)
         = (Ok n, s1)
         /\ Blockchain.new_block T1 (PInt 7) PNone s1 = (Ok blk, s2)
         /\ block_transactions s2 blk
            = [PDict [("sender", PStr "A"); ("recipient", PStr "B");
                      ("amount", PInt 5)]]
         /\ pending s2 = []).
Proof.
  destruct seal_captures_pool as (Hseal & Hmine & Hexample).
  split; [|split].
  - apply (Hseal (fresh T0) T1 (PInt 7) PNone block2 sealed2).
    vm_compute. reflexivity.
  - apply (Hmine (fresh T0) T1 good_data good_proof (PStr "miner-1")).
    + apply reachable_fresh.
    + reflexivity.
    + reflexivity.
    + vm_compute. reflexivity.
  - apply (Hexample (fresh T0) T1 (PInt 7)).
    + apply reachable_fresh.
    + reflexivity.
Defined.

(** C7: a ledger just constructed has a chain of one block, of index 1,
    proof 100 and the sentinel for [previous_hash], and an empty pool; the
    sentinel is the number 1, and a hash is a text of 64 characters, so no
    hash is the sentinel.  Construction returns normally. *)
Theorem fresh_ledger (now : pyfloat) :
  fst (Blockchain.init now blank) = Ok tt
  /\ (exists g : Block,
         the_chain (fresh now) = [g]
         /\ index g = 1 /\ proof g = PInt 100 /\ previous_hash g = SENTINEL
         /\ timestamp g = now /\ block_transactions (fresh now) g = [])
  /\ pending (fresh now) = []
  /\ (forall block : pyval,
         PStr (Blockchain.hash block) <> SENTINEL
         /\ String.length (Blockchain.hash block) = 64%nat).
Proof.
  split; [reflexivity|]. split; [|split].
  - eexists. rewrite fresh_eq. by repeat split.
  - by rewrite fresh_eq.
  - intros block. split; [discriminate|apply hexdigest_length].
Qed.

(** C8: in every reachable state the block at position [i] has index
    [i + 1]; a successful [new_block] lengthens the chain by one, the new
    block being last with index the former length plus one, and so does a
    successful [mine]. *)
Theorem chain_indices :
  (forall (s : state) (i : nat) (b : Block),
      reachable s -> the_chain s !! i = Some b -> index b = Z.of_nat i + 1)
  /\ (forall (s : state) (now : pyfloat) (p ph : pyval) (blk : Block) (s' : state),
         Blockchain.new_block now p ph s = (Ok blk, s') ->
         the_chain s' = the_chain s ++ [blk]
         /\ List.length (the_chain s') = S (List.length (the_chain s))
         /\ index blk = Z.of_nat (List.length (the_chain s)) + 1)
  /\ (forall (s : state) (now : pyfloat) (data : pydict) (p minerId : pyval),
         reachable s ->
         dict_get "proof" data = Some p -> dict_get "id" data = Some minerId ->
         accepts s p = true ->
         exists blk : Block,
           the_chain (snd (App.mine now data s)) = the_chain s ++ [blk]
           /\ List.length (the_chain (snd (App.mine now data s)))
              = S (List.length (the_chain s))
           /\ index blk = Z.of_nat (List.length (the_chain s)) + 1).
Proof.
  split; [|split].
  - intros s i b Hr. apply wf_index. by apply reachable_wf.
  - intros s now p ph blk s' H.
    destruct (new_block_inv _ _ _ _ _ _ H) as (ph' & -> & ->).
    unfold seal, the_chain; simpl. rewrite length_app; simpl.
    repeat split. lia.
  - intros s now data p minerId Hr Hp Hid Ha.
    pose proof (reachable_wf s Hr) as Hwf.
    destruct (wf_last s Hwf) as [lb Hl]. rewrite (accepts_last _ _ _ Hl) in Ha.
    destruct (accepted_facts s now data p minerId lb Hwf Hp Hid Hl Ha)
      as (Hnb & Hnt & Hm & Hc & _).
    eexists. rewrite Hm. cbn [snd]. rewrite Hc, length_app. cbn [List.length].
    repeat split. lia.
Qed.

Lemma chain_indices_witness :
  index block2 = Z.of_nat 1 + 1
  /\ (the_chain sealed2 = the_chain (fresh T0) ++ [block2]
      /\ List.length (the_chain sealed2) = S (List.length (the_chain (fresh T0)))
      /\ index block2 = Z.of_nat (List.length (the_chain (fresh T0))) + 1)
  /\ (exists blk : Block,
         the_chain (snd (App.mine T1 good_data (fresh T0)))
         = the_chain (fresh T0) ++ [blk]
         /\ List.length (the_chain (snd (App.mine T1 good_data (fresh T0))))
            = S (List.length (the_chain (fresh T0)))
         /\ index blk = Z.of_nat (List.length (the_chain (fresh T0))) + 1).
Proof.
  destruct chain_indices as (Hindex & Hseal & Hmine).
  assert (Hnb : Blockchain.new_block T1 (PInt 7) PNone (fresh T0) = (Ok block2, sealed2))
    by (vm_compute; reflexivity).
  split; [|split].
  - apply (Hindex sealed2 1%nat block2); [|reflexivity].
    replace sealed2 with (run (CallNewBlock T1 (PInt 7) PNone) (fresh T0))
      by (vm_compute; reflexivity).
    apply reachable_run, reachable_fresh.
  - exact (Hseal (fresh T0) T1 (PInt 7) PNone block2 sealed2 Hnb).
  - apply (Hmine (fresh T0) T1 good_data good_proof (PStr "miner-1")).
    + apply reachable_fresh.
    + reflexivity.
    + reflexivity.
    + vm_compute. reflexivity.
Defined.

(** C9: [hash] is a function of the block's value alone: two dicts that
    differ only in the order their items, or the items of dicts inside them,
    were inserted have the same hash, because the serialisation lists the
    items of every dict by increasing key. *)
Theorem hash_ignores_insertion_order (b1 b2 : pyval) :
  reordered b1 b2 ->
  json_dumps true b1 = json_dumps true b2
  /\ Blockchain.hash b1 = Blockchain.hash b2.
Proof.
  intros H. pose proof (json_dumps_reordered b1 b2 H) as Hd.
  split; [exact Hd|]. unfold Blockchain.hash. by rewrite Hd.
Qed.

Lemma hash_ignores_insertion_order_witness :
  Blockchain.hash
    (PDict [("index", PInt 2); ("timestamp", PFloat T1);
            ("transactions",
             PList [PDict [("sender", PStr "A"); ("recipient", PStr "B");
                           ("amount", PInt 5)]]);
            ("proof", PInt 7); ("previous_hash", PStr "aa38")])
  = Blockchain.hash
      (PDict [("previous_hash", PStr "aa38"); ("proof", PInt 7);
              ("transactions",
               PList [PDict [("amount", PInt 5); ("sender", PStr "A");
                             ("recipient", PStr "B")]]);
              ("timestamp", PFloat T1); ("index", PInt 2)]).
Proof.
  apply hash_ignores_insertion_order.
  eapply reordered_dict.
  - refine (@bool_decide_unpack _ (NoDup_dec _) _). vm_compute. exact I.
  - apply Permutation_rev.
  - repeat first [ apply Forall2_nil_2 | apply Forall2_cons_2 ];
      try (split; [reflexivity|apply reordered_same]).
    split; [reflexivity|]. apply reordered_list.
    apply Forall2_cons_2; [|apply Forall2_nil_2].
    apply reordered_permutation.
    + refine (@bool_decide_unpack _ (NoDup_dec _) _). vm_compute. exact I.
    + apply (Permutation_app_comm [_; _] [_]).
Defined.

(** C10: when the last block exists, [new_block] called with a
    [previous_hash] that tests false, such as 0, the empty text or [None],
    gives the new block the hash of the last block instead; a
    [previous_hash] that tests true is used as given. *)
Theorem new_block_previous_hash (s : state) (now : pyfloat) (p ph : pyval)
    (lb : Block) :
  last (the_chain s) = Some lb ->
  (exists (blk : Block) (s' : state),
      Blockchain.new_block now p ph s = (Ok blk, s')
      /\ previous_hash blk
         = if truthy ph then ph
           else PStr (Blockchain.hash (block_dict (heap s) lb)))
  /\ truthy (PInt 0) = false /\ truthy (PStr "") = false /\ truthy PNone = false.
Proof.
  intros Hl. split; [|by repeat split].
  destruct (truthy ph) eqn:Ht.
  - eexists _, _. split; [by apply new_block_truthy|reflexivity].
  - eexists _, _. split; [by apply new_block_falsy|reflexivity].
Qed.

Lemma new_block_previous_hash_witness :
  (exists (blk : Block) (s' : state),
      Blockchain.new_block T1 (PInt 7) (PInt 0) (fresh T0) = (Ok blk, s')
      /\ previous_hash blk
         = PStr "aa388f107a593317bc544e8738981b4b92c361cdde2fe454b52e6d10fa839266")
  /\ (exists (blk : Block) (s' : state),
         Blockchain.new_block T1 (PInt 7) (PStr "") (fresh T0) = (Ok blk, s')
         /\ previous_hash blk
            = PStr "aa388f107a593317bc544e8738981b4b92c361cdde2fe454b52e6d10fa839266")
  /\ (exists (blk : Block) (s' : state),
         Blockchain.new_block T1 (PInt 7) (PStr "abc") (fresh T0) = (Ok blk, s')
         /\ previous_hash blk = PStr "abc").
Proof.
  assert (Hl : last (the_chain (fresh T0)) = Some genesis) by reflexivity.
  assert (Hh : PStr (Blockchain.hash (block_dict (heap (fresh T0)) genesis))
               = PStr "aa388f107a593317bc544e8738981b4b92c361cdde2fe454b52e6d10fa839266")
    by (vm_compute; reflexivity).
  split; [|split].
  - destruct (proj1 (new_block_previous_hash (fresh T0) T1 (PInt 7) (PInt 0) genesis Hl))
      as (blk & s' & Hn & Hp).
    exists blk, s'. split; [exact Hn|]. rewrite Hp. exact Hh.
  - destruct (proj1 (new_block_previous_hash (fresh T0) T1 (PInt 7) (PStr "") genesis Hl))
      as (blk & s' & Hn & Hp).
    exists blk, s'. split; [exact Hn|]. rewrite Hp. exact Hh.
  - destruct (proj1 (new_block_previous_hash (fresh T0) T1 (PInt 7) (PStr "abc") genesis Hl))
      as (blk & s' & Hn & Hp).
    exists blk, s'. split; [exact Hn|]. exact Hp.
Defined.

(* ===================================================================== *)
(** ** Further properties: answers, reads, runs *)
(* ===================================================================== *)

Lemma prefix_elem_of {A : Type} (l1 l2 : list A) (x : A) :
  l1 `prefix_of` l2 -> x ∈ l1 -> x ∈ l2.
Proof. intros [k ->] Hx. apply elem_of_app. by left. Qed.

Lemma wf_block_ne (s : state) (b : Block) :
  wf s -> b ∈ the_chain s ->
  (transactions b < current_transactions (blockchain s))%nat.
Proof.
  intros [_ _ Hblocks _] Hb. rewrite Forall_forall in Hblocks. by apply Hblocks.
Qed.

Lemma new_block_nonempty (now : pyfloat) (p ph : pyval) (s : state) :
  the_chain s <> [] ->
  exists ph', Blockchain.new_block now p ph s
              = (Ok (sealed now p ph' s), seal (sealed now p ph' s) s).
Proof.
  intros Hne. destruct (truthy ph) eqn:Ht.
  - exists ph. by apply new_block_truthy.
  - destruct (last (the_chain s)) as [lb|] eqn:Hl.
    + exists (hash_of s lb). by apply new_block_falsy.
    + by apply last_None in Hl.
Qed.

(** One operation: the chain grows at its end, if at all, and no block
    already in it reads differently afterwards. *)
Lemma run_extends (o : op) (s : state) :
  wf s ->
  the_chain s `prefix_of` the_chain (run o s)
  /\ (forall b, b ∈ the_chain s ->
                block_transactions (run o s) b = block_transactions s b).
Proof.
  intros Hwf.
  destruct (run_cases o s Hwf)
    as [->|[[t ->]|[(now & p & ph & _ & ->)|[(now & p & lb & _ & ->)
       |(now & p & id & lb & _ & ->)]]]].
  - done.
  - split; [done|]. intros b Hb. apply block_transactions_queue.
    pose proof (wf_block_ne s b Hwf Hb). lia.
  - split; [by apply (prefix_app_r (the_chain s))|].
    intros b _. apply block_transactions_seal.
  - split; [by apply (prefix_app_r (the_chain s))|].
    intros b _. apply block_transactions_seal.
  - split; [by apply (prefix_app_r (the_chain s))|]. intros b Hb.
    rewrite block_transactions_queue; [apply block_transactions_seal|].
    pose proof (wf_block_ne s b Hwf Hb) as Hlt. destruct Hwf as [_ Hpool _ _].
    unfold seal; simpl. lia.
Qed.

Lemma wf_run_all (os : list op) (s : state) : wf s -> wf (run_all os s).
Proof.
  revert s. induction os as [|o os IH]; intros s Hwf; [done|].
  apply IH. by apply wf_run.
Qed.

Lemma reachable_run_all (os : list op) (s : state) :
  reachable s -> reachable (run_all os s).
Proof.
  revert s. induction os as [|o os IH]; intros s Hr; [done|].
  apply IH. by constructor.
Qed.

Lemma run_all_extends (os : list op) (s : state) :
  wf s ->
  the_chain s `prefix_of` the_chain (run_all os s)
  /\ (forall b, b ∈ the_chain s ->
                block_transactions (run_all os s) b = block_transactions s b).
Proof.
  revert s. induction os as [|o os IH]; intros s Hwf; [done|].
  destruct (run_extends o s Hwf) as [Hp Hb].
  destruct (IH (run o s) (wf_run o s Hwf)) as [Hp' Hb'].
  split; [by etrans|].
  intros b Hin. change (run_all (o :: os) s) with (run_all os (run o s)).
  rewrite Hb'; [by apply Hb|]. by eapply prefix_elem_of.
Qed.

Lemma queue_all_run (ts : list (pyval * pyval * pyval)) (s : state) :
  wf s ->
  exists s', queue_all ts s = (Ok tt, s')
             /\ wf s'
             /\ the_chain s' = the_chain s
             /\ pending s' = pending s ++ map transaction_of ts
             /\ (forall b, b ∈ the_chain s ->
                           block_transactions s' b = block_transactions s b).
Proof.
  revert s. induction ts as [|[[a b] c] ts IH]; intros s Hwf.
  - exists s. by rewrite app_nil_r.
  - destruct (wf_last s Hwf) as [lb Hl].
    set (t := transaction a b c).
    destruct (IH (queue t s) (wf_queue t s Hwf)) as (s' & Hq & Hwf' & Hc & Hp & Hb).
    exists s'. split; [|split; [exact Hwf'|split; [exact Hc|split]]].
    + cbn [queue_all]. unfold mbind, M_bind. by rewrite new_transaction_run, Hl.
    + rewrite Hp, pending_queue by apply Hwf. by rewrite <- app_assoc.
    + intros blk Hin. rewrite Hb by exact Hin.
      apply block_transactions_queue.
      pose proof (wf_block_ne s blk Hwf Hin). lia.
Qed.





(** X3: on an empty chain [new_block] succeeds exactly when the given
    [previous_hash] tests true, making the block of index 1 with it; with one
    that tests false it raises [IndexError] from [self.chain[-1]] and leaves
    the object as it was. *)
Theorem new_block_empty_chain (s : state) (now : pyfloat) (p ph : pyval) :
  the_chain s = [] ->
  (truthy ph = true ->
   exists (blk : Block) (s' : state),
     Blockchain.new_block now p ph s = (Ok blk, s')
     /\ index blk = 1 /\ previous_hash blk = ph /\ the_chain s' = [blk]
     /\ pending s' = [])
  /\ (truthy ph = false -> Blockchain.new_block now p ph s = (Raise IndexError, s)).
Proof.
  intros He. split; intros Ht.
  - eexists _, _. split; [by apply new_block_truthy|].
    split; [unfold sealed; by rewrite He|]. split; [done|].
    split; [|apply pending_seal].
    change (the_chain s ++ [sealed now p ph s] = [sealed now p ph s]).
    by rewrite He.
  - by apply new_block_falsy_empty.
Qed.

Lemma new_block_empty_chain_witness :
  (exists (blk : Block) (s' : state),
      Blockchain.new_block T0 (PInt 100) (PStr "x") unsealed = (Ok blk, s')
      /\ index blk = 1 /\ previous_hash blk = PStr "x" /\ the_chain s' = [blk]
      /\ pending s' = [])
  /\ Blockchain.new_block T0 (PInt 100) PNone unsealed = (Raise IndexError, unsealed).
Proof.
  split.
  - apply (proj1 (new_block_empty_chain unsealed T0 (PInt 100) (PStr "x") eq_refl)).
    reflexivity.
  - apply (proj2 (new_block_empty_chain unsealed T0 (PInt 100) PNone eq_refl)).
    reflexivity.
Defined.

(** X4: in a reachable state [new_transaction] returns the chain's length
    plus one, appends its transaction at the end of the pool and touches
    neither the chain nor the transactions of any block; the number it
    returns is the index of the block the next [new_block] makes, and that
    block ends with the transaction. *)
Theorem new_transaction_hint (s : state) (sender recipient amount : pyval) :
  reachable s ->
  exists s1 : state,
    Blockchain.new_transaction sender recipient amount s
    = (Ok (Z.of_nat (List.length (the_chain s)) + 1), s1)
    /\ the_chain s1 = the_chain s
    /\ pending s1
       = pending s
         ++ [PDict [("sender", sender); ("recipient", recipient); ("amount", amount)]]
    /\ (forall b : Block,
           b ∈ the_chain s -> block_transactions s1 b = block_transactions s b)
    /\ (forall (now : pyfloat) (p ph : pyval),
           exists (blk : Block) (s2 : state),
             Blockchain.new_block now p ph s1 = (Ok blk, s2)
             /\ index blk = Z.of_nat (List.length (the_chain s)) + 1
             /\ block_transactions s2 blk
                = pending s
                  ++ [PDict [("sender", sender); ("recipient", recipient);
                             ("amount", amount)]]).
Proof.
  intros Hr. pose proof (reachable_wf s Hr) as Hwf.
  destruct (wf_last s Hwf) as [lb Hl].
  set (t := transaction sender recipient amount).
  assert (Hi : index lb = Z.of_nat (List.length (the_chain s))).
  { rewrite last_lookup in Hl. rewrite (wf_index s Hwf _ _ Hl).
    destruct (the_chain s); [done|]. simpl List.length. simpl Init.Nat.pred. lia. }
  assert (Hp : pending (queue t s) = pending s ++ [t])
    by (apply pending_queue, Hwf).
  exists (queue t s). split; [by rewrite new_transaction_run, Hl, Hi|].
  split; [done|]. split; [exact Hp|]. split.
  - intros b Hb. apply block_transactions_queue.
    pose proof (wf_block_ne s b Hwf Hb). lia.
  - intros now p ph.
    destruct (new_block_nonempty now p ph (queue t s)) as [ph' Hn];
      [apply (wf_nonempty s Hwf)|].
    eexists _, _. split; [exact Hn|]. split; [done|].
    by rewrite block_transactions_seal.
Qed.

Lemma new_transaction_hint_witness :
  exists s1 : state,
    Blockchain.new_transaction (PStr "A") (PStr "B") (PInt 5) mined
    = (Ok (Z.of_nat (List.length (the_chain mined)) + 1), s1)
    /\ the_chain s1 = the_chain mined
    /\ pending s1
       = pending mined
         ++ [PDict [("sender", PStr "A"); ("recipient", PStr "B");
                    ("amount", PInt 5)]]
    /\ (forall b : Block,
           b ∈ the_chain mined -> block_transactions s1 b = block_transactions mined b)
    /\ (forall (now : pyfloat) (p ph : pyval),
           exists (blk : Block) (s2 : state),
             Blockchain.new_block now p ph s1 = (Ok blk, s2)
             /\ index blk = Z.of_nat (List.length (the_chain mined)) + 1
             /\ block_transactions s2 blk
                = pending mined
                  ++ [PDict [("sender", PStr "A"); ("recipient", PStr "B");
                             ("amount", PInt 5)]]).
Proof. apply new_transaction_hint, reachable_run, reachable_fresh. Defined.

(** X5: in a reachable state, any number of [new_transaction] calls followed
    by [new_block] give a block whose transactions are the pool as it was
    followed by the queued transactions, each once and in the order of the
    calls, and an empty pool. *)
Theorem queued_then_sealed (s : state) (ts : list (pyval * pyval * pyval))
    (now : pyfloat) (p ph : pyval) :
  reachable s ->
  exists (s1 : state) (blk : Block) (s2 : state),
    queue_all ts s = (Ok tt, s1)
    /\ Blockchain.new_block now p ph s1 = (Ok blk, s2)
    /\ block_transactions s2 blk = pending s ++ map transaction_of ts
    /\ pending s2 = []
    /\ the_chain s2 = the_chain s ++ [blk].
Proof.
  intros Hr. pose proof (reachable_wf s Hr) as Hwf.
  destruct (queue_all_run ts s Hwf) as (s1 & Hq & Hwf1 & Hc & Hp & _).
  destruct (new_block_nonempty now p ph s1 (wf_nonempty s1 Hwf1)) as [ph' Hn].
  eexists _, _, _. split; [exact Hq|]. split; [exact Hn|].
  split; [|split; [apply pending_seal|]].
  - by rewrite block_transactions_seal.
  - change (the_chain s1 ++ [sealed now p ph' s1] = the_chain s ++ [sealed now p ph' s1]).
    by rewrite Hc.
Qed.

Lemma queued_then_sealed_witness :
  exists (s1 : state) (blk : Block) (s2 : state),
    queue_all three_transactions mined = (Ok tt, s1)
    /\ Blockchain.new_block T1 (PInt 7) PNone s1 = (Ok blk, s2)
    /\ block_transactions s2 blk = pending mined ++ map transaction_of three_transactions
    /\ pending s2 = []
    /\ the_chain s2 = the_chain mined ++ [blk].
Proof. apply queued_then_sealed, reachable_run, reachable_fresh. Defined.

(** X6: the chain is append-only.  Whatever operations follow a reachable
    state, the chain it has stays as the beginning of the later chain, and
    every block in it keeps its transactions and its hash. *)
Theorem chain_append_only (s : state) (os : list op) :
  reachable s ->
  the_chain s `prefix_of` the_chain (run_all os s)
  /\ (forall b : Block,
         b ∈ the_chain s ->
         block_transactions (run_all os s) b = block_transactions s b
         /\ Blockchain.hash (block_dict (heap (run_all os s)) b)
            = Blockchain.hash (block_dict (heap s) b)).
Proof.
  intros Hr. destruct (run_all_extends os s (reachable_wf s Hr)) as [Hp Hb].
  split; [exact Hp|]. intros b Hin. split; [by apply Hb|].
  f_equal. apply block_dict_ext. by apply Hb.
Qed.

Lemma chain_append_only_witness :
  the_chain (fresh T0) `prefix_of` the_chain (run_all some_ops (fresh T0))
  /\ List.length (the_chain (run_all some_ops (fresh T0))) = 3%nat
  /\ block_transactions (run_all some_ops (fresh T0)) genesis
     = block_transactions (fresh T0) genesis
  /\ Blockchain.hash (block_dict (heap (run_all some_ops (fresh T0))) genesis)
     = Blockchain.hash (block_dict (heap (fresh T0)) genesis).
Proof.
  destruct (chain_append_only (fresh T0) some_ops (reachable_fresh T0)) as [Hp Hb].
  split; [exact Hp|]. split; [vm_compute; reflexivity|].
  apply Hb. apply list_elem_of_here.
Defined.

Lemma nodup_run (o : op) (s : state) :
  wf s -> NoDup (transactions <$> the_chain s) ->
  NoDup (transactions <$> the_chain (run o s)).
Proof.
  intros Hwf Hnd.
  assert (Hseal : forall b, transactions b = current_transactions (blockchain s) ->
                            NoDup (transactions <$> (the_chain s ++ [b]))).
  { intros b Hb. rewrite fmap_app. apply NoDup_app. split; [exact Hnd|].
    split; [|apply NoDup_singleton].
    intros x Hx Hx'. apply list_elem_of_fmap in Hx as (b' & -> & Hin).
    apply list_elem_of_singleton in Hx'. simpl in Hx'.
    pose proof (wf_block_ne s b' Hwf Hin). lia. }
  destruct (run_cases o s Hwf)
    as [->|[[t ->]|[(now & p & ph & _ & ->)|[(now & p & lb & _ & ->)
       |(now & p & id & lb & _ & ->)]]]]; try done; by apply Hseal.
Qed.

(** X7: in a reachable state no two blocks refer to the same transactions
    list, and none refers to the list the pool is bound to: what is queued
    later cannot show up in a block already made. *)
Theorem lists_not_shared (s : state) :
  reachable s ->
  NoDup (transactions <$> the_chain s)
  /\ current_transactions (blockchain s) ∉ (transactions <$> the_chain s).
Proof.
  intros Hr. split.
  - induction Hr as [now|o s Hr IH].
    + rewrite fresh_eq. apply NoDup_singleton.
    + apply nodup_run; [by apply reachable_wf|exact IH].
  - intros Hin. apply list_elem_of_fmap in Hin as (b & Heq & Hb).
    pose proof (wf_block_ne s b (reachable_wf s Hr) Hb). lia.
Qed.

Lemma lists_not_shared_witness :
  NoDup (transactions <$> the_chain (run_all some_ops (fresh T0)))
  /\ current_transactions (blockchain (run_all some_ops (fresh T0)))
     ∉ (transactions <$> the_chain (run_all some_ops (fresh T0))).
Proof. apply lists_not_shared, reachable_run_all, reachable_fresh. Defined.

(** X8: the reward of a successful [mine] is the first transaction of the
    next block: after it, any calls of [new_transaction] followed by
    [new_block] make a block whose transactions are the reward and then the
    queued ones, two places after the chain's former end. *)
Theorem reward_in_next_block (s : state) (now : pyfloat) (data : pydict)
    (p minerId : pyval) (ts : list (pyval * pyval * pyval))
    (now' : pyfloat) (p' ph' : pyval) :
  reachable s ->
  dict_get "proof" data = Some p -> dict_get "id" data = Some minerId ->
  accepts s p = true ->
  exists (s3 : state) (blk' : Block) (s4 : state),
    queue_all ts (snd (App.mine now data s)) = (Ok tt, s3)
    /\ Blockchain.new_block now' p' ph' s3 = (Ok blk', s4)
    /\ block_transactions s4 blk'
       = PDict [("sender", PStr "0"); ("recipient", minerId); ("amount", PInt 1)]
         :: map transaction_of ts
    /\ index blk' = Z.of_nat (List.length (the_chain s)) + 2.
Proof.
  intros Hr Hp Hid Ha. pose proof (reachable_wf s Hr) as Hwf.
  destruct (wf_last s Hwf) as [lb Hl]. rewrite (accepts_last _ _ _ Hl) in Ha.
  destruct (accepted_facts s now data p minerId lb Hwf Hp Hid Hl Ha)
    as (_ & _ & Hm & Hc & _ & _ & _ & Hp2).
  rewrite Hm. cbn [snd].
  set (s2 := queue (reward minerId) (seal (sealed now p (hash_of s lb) s) s)) in *.
  assert (Hwf2 : wf s2) by (apply wf_queue, wf_seal, Hwf).
  destruct (queue_all_run ts s2 Hwf2) as (s3 & Hq & Hwf3 & Hc3 & Hp3 & _).
  destruct (new_block_nonempty now' p' ph' s3 (wf_nonempty s3 Hwf3)) as [ph'' Hn].
  eexists _, _, _. split; [exact Hq|]. split; [exact Hn|]. split.
  - rewrite block_transactions_seal.
    change (pending s3 = reward minerId :: map transaction_of ts).
    by rewrite Hp3, Hp2.
  - unfold sealed; simpl. rewrite Hc3, Hc, length_app. simpl. lia.
Qed.

Lemma reward_in_next_block_witness :
  exists (s3 : state) (blk' : Block) (s4 : state),
    queue_all three_transactions (snd (App.mine T1 good_data (fresh T0))) = (Ok tt, s3)
    /\ Blockchain.new_block T1 (PInt 7) PNone s3 = (Ok blk', s4)
    /\ block_transactions s4 blk'
       = PDict [("sender", PStr "0"); ("recipient", PStr "miner-1");
                ("amount", PInt 1)]
         :: map transaction_of three_transactions
    /\ index blk' = Z.of_nat (List.length (the_chain (fresh T0))) + 2.
Proof.
  apply (reward_in_next_block (fresh T0) T1 good_data good_proof (PStr "miner-1")).
  - apply reachable_fresh.
  - reflexivity.
  - reflexivity.
  - vm_compute. reflexivity.
Defined.






(** X10: the first block never changes: in every reachable state the chain
    begins with the block the constructor made, of index 1, proof 100 and
    [previous_hash] 1, and that block has no transactions. *)
Theorem genesis_persists (s : state) :
  reachable s ->
  exists now : pyfloat,
    the_chain s !! 0%nat = Some (mkBlock 1 now 0%nat (PInt 100) (PInt 1))
    /\ block_transactions s (mkBlock 1 now 0%nat (PInt 100) (PInt 1)) = [].
Proof.
  induction 1 as [now|o s Hr (now & Hg & Ht)].
  - exists now. by rewrite fresh_eq.
  - exists now. destruct (run_extends o s (reachable_wf s Hr)) as [Hp Hb].
    split; [by eapply prefix_lookup_Some|].
    rewrite Hb; [exact Ht|]. by eapply list_elem_of_lookup_2.
Qed.

Lemma genesis_persists_witness :
  exists now : pyfloat,
    the_chain (run_all some_ops (fresh T0)) !! 0%nat
    = Some (mkBlock 1 now 0%nat (PInt 100) (PInt 1))
    /\ block_transactions (run_all some_ops (fresh T0))
         (mkBlock 1 now 0%nat (PInt 100) (PInt 1)) = [].
Proof. apply genesis_persists, reachable_run_all, reachable_fresh. Defined.

(** X11: in a reachable state, [new_block] called without [previous_hash]
    does exactly what it does when handed the hash of the last block, as
    [mine] hands it: the same block, the same state. *)
Theorem new_block_default_hash (s : state) (now : pyfloat) (p : pyval) :
  reachable s ->
  exists (lb blk : Block) (s' : state),
    last (the_chain s) = Some lb
    /\ Blockchain.new_block now p PNone s = (Ok blk, s')
    /\ Blockchain.new_block now p (PStr (Blockchain.hash (block_dict (heap s) lb))) s
       = (Ok blk, s')
    /\ previous_hash blk = PStr (Blockchain.hash (block_dict (heap s) lb)).
Proof.
  intros Hr. destruct (wf_last s (reachable_wf s Hr)) as [lb Hl].
  eexists lb, _, _. split; [exact Hl|].
  split; [by apply new_block_falsy|]. split; [|reflexivity].
  by apply new_block_hash_of.
Qed.

Lemma new_block_default_hash_witness :
  exists (lb blk : Block) (s' : state),
    last (the_chain mined) = Some lb
    /\ Blockchain.new_block T1 (PInt 7) PNone mined = (Ok blk, s')
    /\ Blockchain.new_block T1 (PInt 7)
         (PStr (Blockchain.hash (block_dict (heap mined) lb))) mined
       = (Ok blk, s')
    /\ previous_hash blk = PStr (Blockchain.hash (block_dict (heap mined) lb)).
Proof. apply new_block_default_hash, reachable_run, reachable_fresh. Defined.
